(** * buildenv: configuration resolution and emission (src/buildenv.go)

    A shallow embedding of [GetVaultSecret] and of [app.Action] from
    src/buildenv.go, together with the parts of the Go runtime and libraries
    that the action's observable behaviour depends on:
    - gopkg.in/yaml.v2's [Unmarshal] into the [Config] and [ConfigV1] types
      (lenient decoding: unknown keys ignored, a type mismatch recorded as an
      error while decoding continues, duplicate keys overwriting, a mapping
      decoded into an existing map merging into it);
    - fmt's [%q] verb (strconv.Quote) and its [%!q(...)] bad-verb output;
    - urfave/cli's handling of [cli.NewExitError] (message on stderr, exit
      code);
    - Go's unordered [range] over maps, as an explicit iteration-order
      argument. *)

From Stdlib Require Import String Ascii List ZArith Bool Lia Permutation.
Import ListNotations.
Set Warnings "-register-all".
Open Scope string_scope.
Open Scope list_scope.

(** ** Strings *)

Definition cat (l : list string) : string := String.concat EmptyString l.

Definition chr (n : nat) : string := String (ascii_of_nat n) EmptyString.

(** The double quote character. *)
Definition dq : string := chr 34.

(** The backslash character. *)
Definition bs : string := chr 92.

Definition zbyte (c : ascii) : Z := Z.of_nat (nat_of_ascii c).

(** ** Go maps

    A Go [map[string]V] as an association list without duplicate keys;
    [map_set] is [m[k] = v], [map_get z k m] is [m[k]] with the zero value
    [z] for an absent key. The order of the list is not an iteration order:
    [range] takes its order from an explicit argument (see [action]). *)

Definition gomap (V : Type) : Type := list (string * V).

Fixpoint map_set {V} (k : string) (v : V) (m : gomap V) : gomap V :=
  match m with
  | [] => [(k, v)]
  | (k', v') :: t => if String.eqb k k' then (k, v) :: t else (k', v') :: map_set k v t
  end.

Fixpoint map_get {V} (zero : V) (k : string) (m : gomap V) : V :=
  match m with
  | [] => zero
  | (k', v') :: t => if String.eqb k k' then v' else map_get zero k t
  end.

(** ** The configuration types of [main] *)

Definition EnvVars : Type := gomap string.
Definition Secrets : Type := gomap string.

(** [Config.Environments[_].Dcs[_]] *)
Record DcV2 : Type := mkDcV2 { dc_Vars : EnvVars; dc_Secrets : Secrets }.

(** [Config.Environments[_]] *)
Record EnvV2 : Type := mkEnvV2 {
  env_Vars : EnvVars; env_Secrets : Secrets; env_Dcs : gomap DcV2 }.

Record Config : Type := mkConfig {
  cfg_Vars : EnvVars; cfg_Secrets : Secrets; cfg_Environments : gomap EnvV2 }.

(** [ConfigV1.Environments[_]] *)
Record EnvV1 : Type := mkEnvV1 {
  env1_Vars : EnvVars; env1_Secrets : Secrets; env1_Dcs : gomap EnvVars }.

Record ConfigV1 : Type := mkConfigV1 {
  cfg1_Vars : EnvVars; cfg1_Secrets : Secrets; cfg1_Environments : gomap EnvV1 }.

Definition zero_dc : DcV2 := mkDcV2 [] [].
Definition zero_env : EnvV2 := mkEnvV2 [] [] [].
Definition zero_config : Config := mkConfig [] [] [].
Definition zero_env1 : EnvV1 := mkEnvV1 [] [] [].
Definition zero_config1 : ConfigV1 := mkConfigV1 [] [] [].

(** ** YAML documents

    The node tree produced by the YAML parser, after tag resolution: a null
    scalar ([~], [null], empty), any other scalar with its text, a sequence,
    a mapping with scalar keys. A document is empty (no node: an empty file
    or one holding only comments), fails to parse, or has a root node. *)

Inductive yaml : Type :=
| YNull
| YScalar (text : string)
| YSeq (items : list yaml)
| YMap (entries : list (string * yaml)).

Inductive document : Type :=
| DocEmpty
| DocSyntaxError
| DocNode (root : yaml).

(** ** yaml.v2 decoding

    [unmarshal_T n out] decodes node [n] into a location of type [T] that
    currently holds [out]. It returns the new contents, yaml.v2's [good]
    result of [d.unmarshal] (whether a map element is stored), and whether
    no type error was recorded. A scalar into a string keeps its text; null
    stores the zero value; a mapping into a map merges its entries into the
    existing map (entries whose value fails are skipped); a mapping into a
    struct decodes the keys named after the fields ([vars], [secrets],
    [environments], [dcs]) and ignores the others; anything else is a type
    error that leaves the location unchanged. *)

Definition unmarshal_string (n : yaml) (out : string) : string * bool * bool :=
  match n with
  | YNull => (EmptyString, true, true)
  | YScalar s => (s, true, true)
  | _ => (out, false, false)
  end.

Fixpoint strmap_entries (kvs : list (string * yaml)) (m : gomap string) (ok : bool)
  : gomap string * bool :=
  match kvs with
  | [] => (m, ok)
  | (k, v) :: t =>
      let '(e, good, ok') := unmarshal_string v EmptyString in
      strmap_entries t (if good then map_set k e m else m) (ok && ok')
  end.

(** [map[string]string], i.e. [EnvVars] and [Secrets] *)
Definition unmarshal_strmap (n : yaml) (out : gomap string) : gomap string * bool * bool :=
  match n with
  | YNull => ([], true, true)
  | YMap kvs => let '(m, ok) := strmap_entries kvs out true in (m, true, ok)
  | _ => (out, false, false)
  end.

Fixpoint dc_fields (kvs : list (string * yaml)) (d : DcV2) (ok : bool) : DcV2 * bool :=
  match kvs with
  | [] => (d, ok)
  | (k, v) :: t =>
      if String.eqb k "vars" then
        let '(m, _, ok') := unmarshal_strmap v (dc_Vars d) in
        dc_fields t (mkDcV2 m (dc_Secrets d)) (ok && ok')
      else if String.eqb k "secrets" then
        let '(m, _, ok') := unmarshal_strmap v (dc_Secrets d) in
        dc_fields t (mkDcV2 (dc_Vars d) m) (ok && ok')
      else dc_fields t d ok
  end.

Definition unmarshal_dc (n : yaml) (out : DcV2) : DcV2 * bool * bool :=
  match n with
  | YNull => (zero_dc, true, true)
  | YMap kvs => let '(d, ok) := dc_fields kvs out true in (d, true, ok)
  | _ => (out, false, false)
  end.

Fixpoint dcs_entries (kvs : list (string * yaml)) (m : gomap DcV2) (ok : bool)
  : gomap DcV2 * bool :=
  match kvs with
  | [] => (m, ok)
  | (k, v) :: t =>
      let '(e, good, ok') := unmarshal_dc v zero_dc in
      dcs_entries t (if good then map_set k e m else m) (ok && ok')
  end.

Definition unmarshal_dcs (n : yaml) (out : gomap DcV2) : gomap DcV2 * bool * bool :=
  match n with
  | YNull => ([], true, true)
  | YMap kvs => let '(m, ok) := dcs_entries kvs out true in (m, true, ok)
  | _ => (out, false, false)
  end.

Fixpoint env_fields (kvs : list (string * yaml)) (e : EnvV2) (ok : bool) : EnvV2 * bool :=
  match kvs with
  | [] => (e, ok)
  | (k, v) :: t =>
      if String.eqb k "vars" then
        let '(m, _, ok') := unmarshal_strmap v (env_Vars e) in
        env_fields t (mkEnvV2 m (env_Secrets e) (env_Dcs e)) (ok && ok')
      else if String.eqb k "secrets" then
        let '(m, _, ok') := unmarshal_strmap v (env_Secrets e) in
        env_fields t (mkEnvV2 (env_Vars e) m (env_Dcs e)) (ok && ok')
      else if String.eqb k "dcs" then
        let '(m, _, ok') := unmarshal_dcs v (env_Dcs e) in
        env_fields t (mkEnvV2 (env_Vars e) (env_Secrets e) m) (ok && ok')
      else env_fields t e ok
  end.

Definition unmarshal_env (n : yaml) (out : EnvV2) : EnvV2 * bool * bool :=
  match n with
  | YNull => (zero_env, true, true)
  | YMap kvs => let '(e, ok) := env_fields kvs out true in (e, true, ok)
  | _ => (out, false, false)
  end.

Fixpoint envs_entries (kvs : list (string * yaml)) (m : gomap EnvV2) (ok : bool)
  : gomap EnvV2 * bool :=
  match kvs with
  | [] => (m, ok)
  | (k, v) :: t =>
      let '(e, good, ok') := unmarshal_env v zero_env in
      envs_entries t (if good then map_set k e m else m) (ok && ok')
  end.

Definition unmarshal_envs (n : yaml) (out : gomap EnvV2) : gomap EnvV2 * bool * bool :=
  match n with
  | YNull => ([], true, true)
  | YMap kvs => let '(m, ok) := envs_entries kvs out true in (m, true, ok)
  | _ => (out, false, false)
  end.

Fixpoint config_fields (kvs : list (string * yaml)) (c : Config) (ok : bool) : Config * bool :=
  match kvs with
  | [] => (c, ok)
  | (k, v) :: t =>
      if String.eqb k "vars" then
        let '(m, _, ok') := unmarshal_strmap v (cfg_Vars c) in
        config_fields t (mkConfig m (cfg_Secrets c) (cfg_Environments c)) (ok && ok')
      else if String.eqb k "secrets" then
        let '(m, _, ok') := unmarshal_strmap v (cfg_Secrets c) in
        config_fields t (mkConfig (cfg_Vars c) m (cfg_Environments c)) (ok && ok')
      else if String.eqb k "environments" then
        let '(m, _, ok') := unmarshal_envs v (cfg_Environments c) in
        config_fields t (mkConfig (cfg_Vars c) (cfg_Secrets c) m) (ok && ok')
      else config_fields t c ok
  end.

Definition unmarshal_config (n : yaml) (out : Config) : Config * bool * bool :=
  match n with
  | YNull => (zero_config, true, true)
  | YMap kvs => let '(c, ok) := config_fields kvs out true in (c, true, ok)
  | _ => (out, false, false)
  end.

(** The same for [ConfigV1], whose [Dcs] is a [map[string]EnvVars]. *)

Fixpoint dcs1_entries (kvs : list (string * yaml)) (m : gomap EnvVars) (ok : bool)
  : gomap EnvVars * bool :=
  match kvs with
  | [] => (m, ok)
  | (k, v) :: t =>
      let '(e, good, ok') := unmarshal_strmap v [] in
      dcs1_entries t (if good then map_set k e m else m) (ok && ok')
  end.

Definition unmarshal_dcs1 (n : yaml) (out : gomap EnvVars) : gomap EnvVars * bool * bool :=
  match n with
  | YNull => ([], true, true)
  | YMap kvs => let '(m, ok) := dcs1_entries kvs out true in (m, true, ok)
  | _ => (out, false, false)
  end.

Fixpoint env1_fields (kvs : list (string * yaml)) (e : EnvV1) (ok : bool) : EnvV1 * bool :=
  match kvs with
  | [] => (e, ok)
  | (k, v) :: t =>
      if String.eqb k "vars" then
        let '(m, _, ok') := unmarshal_strmap v (env1_Vars e) in
        env1_fields t (mkEnvV1 m (env1_Secrets e) (env1_Dcs e)) (ok && ok')
      else if String.eqb k "secrets" then
        let '(m, _, ok') := unmarshal_strmap v (env1_Secrets e) in
        env1_fields t (mkEnvV1 (env1_Vars e) m (env1_Dcs e)) (ok && ok')
      else if String.eqb k "dcs" then
        let '(m, _, ok') := unmarshal_dcs1 v (env1_Dcs e) in
        env1_fields t (mkEnvV1 (env1_Vars e) (env1_Secrets e) m) (ok && ok')
      else env1_fields t e ok
  end.

Definition unmarshal_env1 (n : yaml) (out : EnvV1) : EnvV1 * bool * bool :=
  match n with
  | YNull => (zero_env1, true, true)
  | YMap kvs => let '(e, ok) := env1_fields kvs out true in (e, true, ok)
  | _ => (out, false, false)
  end.

Fixpoint envs1_entries (kvs : list (string * yaml)) (m : gomap EnvV1) (ok : bool)
  : gomap EnvV1 * bool :=
  match kvs with
  | [] => (m, ok)
  | (k, v) :: t =>
      let '(e, good, ok') := unmarshal_env1 v zero_env1 in
      envs1_entries t (if good then map_set k e m else m) (ok && ok')
  end.

Definition unmarshal_envs1 (n : yaml) (out : gomap EnvV1) : gomap EnvV1 * bool * bool :=
  match n with
  | YNull => ([], true, true)
  | YMap kvs => let '(m, ok) := envs1_entries kvs out true in (m, true, ok)
  | _ => (out, false, false)
  end.

Fixpoint config1_fields (kvs : list (string * yaml)) (c : ConfigV1) (ok : bool)
  : ConfigV1 * bool :=
  match kvs with
  | [] => (c, ok)
  | (k, v) :: t =>
      if String.eqb k "vars" then
        let '(m, _, ok') := unmarshal_strmap v (cfg1_Vars c) in
        config1_fields t (mkConfigV1 m (cfg1_Secrets c) (cfg1_Environments c)) (ok && ok')
      else if String.eqb k "secrets" then
        let '(m, _, ok') := unmarshal_strmap v (cfg1_Secrets c) in
        config1_fields t (mkConfigV1 (cfg1_Vars c) m (cfg1_Environments c)) (ok && ok')
      else if String.eqb k "environments" then
        let '(m, _, ok') := unmarshal_envs1 v (cfg1_Environments c) in
        config1_fields t (mkConfigV1 (cfg1_Vars c) (cfg1_Secrets c) m) (ok && ok')
      else config1_fields t c ok
  end.

Definition unmarshal_config1 (n : yaml) (out : ConfigV1) : ConfigV1 * bool * bool :=
  match n with
  | YNull => (zero_config1, true, true)
  | YMap kvs => let '(c, ok) := config1_fields kvs out true in (c, true, ok)
  | _ => (out, false, false)
  end.

(** [yaml.Unmarshal(yamlFile, &config)] on a zero [config]: the decoded value
    and whether [err == nil]. An empty document decodes nothing and succeeds;
    a syntax error fails before anything is decoded. *)
Definition yaml_Unmarshal_Config (doc : document) : Config * bool :=
  match doc with
  | DocEmpty => (zero_config, true)
  | DocSyntaxError => (zero_config, false)
  | DocNode n => let '(c, _, ok) := unmarshal_config n zero_config in (c, ok)
  end.

Definition yaml_Unmarshal_ConfigV1 (doc : document) : ConfigV1 * bool :=
  match doc with
  | DocEmpty => (zero_config1, true)
  | DocSyntaxError => (zero_config1, false)
  | DocNode n => let '(c, _, ok) := unmarshal_config1 n zero_config1 in (c, ok)
  end.


(** ** Events and the action monad

    One run of the program is the list of its observable events together
    with how [app.Action] ended: [Ok] when it returned [nil] (exit code 0),
    [Exit msg code] when it returned [cli.NewExitError(msg, code)], which
    urfave/cli reports by printing [msg] on stderr and exiting with
    [code]. *)

Inductive event : Type :=
| EMlock                 (** an [mlockall] attempt *)
| EReadFile (path : string)   (** [ioutil.ReadFile] of the variables file *)
| EGetSecret (path : string)  (** a [GetVaultSecret] call: client and read *)
| EStdout (line : string)     (** one line on stdout *)
| EStdoutYamlError            (** [fmt.Println(err)] of the decoder's error *)
| EStderr (msg : string).

Inductive outcome (A : Type) : Type :=
| Ok (a : A)
| Exit (msg : string) (code : nat).
Arguments Ok {A} a.
Arguments Exit {A} msg code.

Definition M (A : Type) : Type := (list event * outcome A)%type.

Definition ret {A} (a : A) : M A := ([], Ok a).

Definition bind {A B} (m : M A) (f : A -> M B) : M B :=
  match m with
  | (es, Ok a) => match f a with (es', r) => (es ++ es', r) end
  | (es, Exit msg c) => (es, Exit msg c)
  end.

Notation "x <- m ;; k" := (bind m (fun x => k))
  (at level 61, m at next level, right associativity).
Notation "m ;; k" := (bind m (fun _ => k)) (at level 61, right associativity).

Definition emit (e : event) : M unit := ([e], Ok tt).

Definition println (line : string) : M unit := emit (EStdout line).

(** [return cli.NewExitError(msg, code)] *)
Definition exit_error {A} (msg : string) (code : nat) : M A :=
  ([EStderr msg], Exit msg code).

Definition EnvErrorCode : nat := 2.
Definition YamlErrorCode : nat := 5.
Definition VaultErrorCode : nat := 6.

(** The process exit code of a run. *)
Definition exit_code {A} (m : M A) : nat :=
  match snd m with Ok _ => 0 | Exit _ c => c end.

Definition is_stdout (e : event) : bool :=
  match e with EStdout _ | EStdoutYamlError => true | _ => false end.

(** What a run writes on stdout, line by line. *)
Definition stdout (es : list event) : list event := filter is_stdout es.

(** ** The secret store

    What [vaultapi.NewClient] and [vault.Logical().Read(path)] give for a
    path: a client construction error, a read error, no secret ([nil]), or a
    secret whose [Data] map holds JSON values (numbers as [json.Number]). *)

Inductive jvalue : Type :=
| JString (s : string)
| JNumber (text : string)
| JBool (b : bool)
| JNull.

Inductive vault_reply : Type :=
| VClientError (msg : string)
| VReadError (msg : string)
| VNoSecret
| VSecret (data : gomap jvalue).

Definition vault_ok (r : vault_reply) : bool :=
  match r with VSecret _ => true | _ => false end.

(** [GetVaultSecret(path)]: the secret's [Data], or the error it returns. *)
Definition GetVaultSecret (store : string -> vault_reply) (path : string)
  : M (gomap jvalue + string) :=
  emit (EGetSecret path) ;;
  ret (match store path with
       | VClientError e => inr (cat ["Vault - Client Error: "; e])
       | VReadError e => inr (cat ["Vault - Read Error: "; e])
       | VNoSecret => inr (cat ["Vault - No secret at path: "; path])
       | VSecret data => inl data
       end).

(** ** The world and the command line *)

Record World : Type := mkWorld {
  files : string -> option document;   (** [ioutil.ReadFile(filepath.Abs(p))] *)
  store : string -> vault_reply }.

Record Args : Type := mkArgs {
  a_env : string;        (** [--environment] / [ENVIRONMENT] *)
  a_dc : string;         (** [--datacenter] / [DATACENTER] *)
  a_varsFile : string;   (** [--variables_file] / [VARIABLES_FILE] *)
  a_mlock : bool }.      (** [--mlock_enabled] *)

(** Modelled from the spec: [enableMlock], which is not in src/. Section 4.5
    of the spec: when requested, an attempt to lock the process memory,
    whose failure is reported (on stderr, where section 6 puts error
    messages) without aborting; otherwise a no-op. *)
Definition enableMlock (mlockBool : bool) : M unit :=
  if mlockBool then emit EMlock else ret tt.

(** The iteration order of each [range] over a map: the six loops of the
    action are numbered 1 to 6 in bucket order. Go randomises it; a run is
    determined once the orders are fixed. *)
Definition range_order : Type := nat -> list (string * string) -> list (string * string).

Section Emission.

(** [strconv.IsPrint] for runes above U+00FF (Unicode tables). *)
Variable uprint : Z -> bool.

Local Open Scope Z_scope.

Definition hexdigit (n : Z) : string :=
  match String.get (Z.to_nat n) "0123456789abcdef" with
  | Some c => String c EmptyString
  | None => EmptyString
  end.

(** [w] lowercase hexadecimal digits of [r]. *)
Fixpoint hexw (w : nat) (r : Z) : string :=
  match w with
  | O => EmptyString
  | S w' => String.append (hexw w' (r / 16)) (hexdigit (r mod 16))
  end.

Definition IsPrint (r : Z) : bool :=
  if r <=? 255 then ((32 <=? r) && (r <=? 126)) || ((161 <=? r) && negb (r =? 173))
  else uprint r.

(** [appendEscapedRune(buf, r, quote, false, false)]; [raw] is the UTF-8
    encoding of [r] as it stood in the input. *)
Definition appendEscapedRune (r : Z) (raw : string) : string :=
  if (r =? 34) || (r =? 92) then String.append bs raw
  else if IsPrint r then raw
  else if r =? 7 then cat [bs; "a"]
  else if r =? 8 then cat [bs; "b"]
  else if r =? 12 then cat [bs; "f"]
  else if r =? 10 then cat [bs; "n"]
  else if r =? 13 then cat [bs; "r"]
  else if r =? 9 then cat [bs; "t"]
  else if r =? 11 then cat [bs; "v"]
  else if (r <? 32) || (r =? 127) then cat [bs; "x"; hexw 2 r]
  else if r <? 65536 then cat [bs; "u"; hexw 4 r]
  else cat [bs; "U"; hexw 8 r].

(** An undecodable byte: [\xHH]. *)
Definition esc_byte (b : Z) (rest : string) : string :=
  String.append (cat [bs; "x"; hexw 2 b]) rest.

Definition cont (b : Z) : bool := (128 <=? b) && (b <=? 191).

(** The range of the second byte of a 3- or 4-byte UTF-8 sequence. *)
Definition second_ok (b0 b1 : Z) : bool :=
  if b0 =? 224 then (160 <=? b1) && (b1 <=? 191)
  else if b0 =? 237 then (128 <=? b1) && (b1 <=? 159)
  else if b0 =? 240 then (144 <=? b1) && (b1 <=? 191)
  else if b0 =? 244 then (128 <=? b1) && (b1 <=? 143)
  else cont b1.

(** The loop of [appendQuotedWith], with [utf8.DecodeRuneInString]. *)
Fixpoint quote_chars (s : string) : string :=
  match s with
  | EmptyString => EmptyString
  | String c0 s1 =>
    let b0 := zbyte c0 in
    if b0 <? 128 then String.append (appendEscapedRune b0 (String c0 EmptyString)) (quote_chars s1)
    else
      match s1 with
      | EmptyString => esc_byte b0 (quote_chars s1)
      | String c1 s2 =>
        let b1 := zbyte c1 in
        if (194 <=? b0) && (b0 <=? 223) && cont b1 then
          String.append
            (appendEscapedRune (Z.lor (Z.shiftl (Z.land b0 31) 6) (Z.land b1 63))
               (String c0 (String c1 EmptyString)))
            (quote_chars s2)
        else
          match s2 with
          | EmptyString => esc_byte b0 (quote_chars s1)
          | String c2 s3 =>
            let b2 := zbyte c2 in
            if (224 <=? b0) && (b0 <=? 239) && second_ok b0 b1 && cont b2 then
              String.append
                (appendEscapedRune
                   (Z.lor (Z.lor (Z.shiftl (Z.land b0 15) 12) (Z.shiftl (Z.land b1 63) 6))
                      (Z.land b2 63))
                   (String c0 (String c1 (String c2 EmptyString))))
                (quote_chars s3)
            else
              match s3 with
              | EmptyString => esc_byte b0 (quote_chars s1)
              | String c3 s4 =>
                let b3 := zbyte c3 in
                if (240 <=? b0) && (b0 <=? 244) && second_ok b0 b1 && cont b2 && cont b3 then
                  String.append
                    (appendEscapedRune
                       (Z.lor (Z.lor (Z.shiftl (Z.land b0 7) 18) (Z.shiftl (Z.land b1 63) 12))
                          (Z.lor (Z.shiftl (Z.land b2 63) 6) (Z.land b3 63)))
                       (String c0 (String c1 (String c2 (String c3 EmptyString)))))
                    (quote_chars s4)
                else esc_byte b0 (quote_chars s1)
              end
          end
      end
  end.

(** [fmt.Sprintf("%q", s)] for a string [s]: [strconv.Quote(s)]. *)
Definition go_quote (s : string) : string := cat [dq; quote_chars s; dq].

Local Close Scope Z_scope.

(** [fmt.Sprintf("%q", x)] for [x := secret.Data["value"]], an
    [interface{}]: [None] is the nil interface of an absent key. *)
Definition fmt_q_value (x : option jvalue) : string :=
  match x with
  | Some (JString s) => go_quote s
  | Some (JNumber t) => go_quote t      (* json.Number is a Stringer *)
  | Some (JBool true) => "%!q(bool=true)"
  | Some (JBool false) => "%!q(bool=false)"
  | Some JNull | None => "%!q(<nil>)"
  end.

Definition data_value (data : gomap jvalue) : option jvalue :=
  match find (fun kv => String.eqb (fst kv) "value") data with
  | Some (_, v) => Some v
  | None => None
  end.

(** [fmt.Printf("export %s=%q\n", k, v)] *)
Definition var_line (k v : string) : string := cat ["export "; k; "="; go_quote v].

(** [fmt.Printf("export %s=%q # %s\n", k, secret.Data["value"], path)] *)
Definition secret_line (k : string) (data : gomap jvalue) (path : string) : string :=
  cat ["export "; k; "="; fmt_q_value (data_value data); " # "; path].

(** [for k, v := range vars { fmt.Printf("export %s=%q\n", k, v) }] *)
Fixpoint range_vars (l : list (string * string)) : M unit :=
  match l with
  | [] => ret tt
  | (k, v) :: t => println (var_line k v) ;; range_vars t
  end.

(** One iteration of [for k, path := range secrets]. *)
Definition emit_secret (store : string -> vault_reply) (k path : string) : M unit :=
  r <- GetVaultSecret store path ;;
  match r with
  | inl data => println (secret_line k data path)
  | inr err => exit_error err VaultErrorCode
  end.

Fixpoint range_secrets (store : string -> vault_reply) (l : list (string * string)) : M unit :=
  match l with
  | [] => ret tt
  | (k, path) :: t => emit_secret store k path ;; range_secrets store t
  end.

Definition when (b : bool) (m : M unit) : M unit := if b then m else ret tt.

(** Lines 165-228 of [app.Action]: everything printed once the YAML file has
    been decoded, from [config] in both the current and the legacy case. *)
Definition print_config (order : range_order) (store : string -> vault_reply)
    (legacy : bool) (config : Config) (env dc : string) : M unit :=
  println "# Setting Variables for:" ;;
  println (cat ["# Environment: "; env]) ;;
  when (negb (String.eqb dc EmptyString)) (println (cat ["# Datacenter: "; dc])) ;;
  println "# Global Vars:" ;;
  range_vars (order 1 (cfg_Vars config)) ;;
  println "# Global Secrets:" ;;
  range_secrets store (order 2 (cfg_Secrets config)) ;;
  println (cat ["# Environment ("; env; ") Vars:"]) ;;
  range_vars (order 3 (env_Vars (map_get zero_env env (cfg_Environments config)))) ;;
  println (cat ["# Environment ("; env; ") Secrets:"]) ;;
  range_secrets store (order 4 (env_Secrets (map_get zero_env env (cfg_Environments config)))) ;;
  if legacy then
    when (negb (String.eqb dc EmptyString))
      (println (cat ["# Datacenter ("; dc; ") Specific Vars:"]) ;;
       range_vars (order 5 (dc_Vars (map_get zero_dc dc
                     (env_Dcs (map_get zero_env env (cfg_Environments config)))))))
  else
    println (cat ["# Datacenter ("; env; ") Specific Vars:"]) ;;
    range_vars (order 5 (dc_Vars (map_get zero_dc dc
                  (env_Dcs (map_get zero_env env (cfg_Environments config)))))) ;;
    println (cat ["# Datacenter ("; env; ") Specific Secrets:"]) ;;
    range_secrets store (order 6 (dc_Secrets (map_get zero_dc dc
                  (env_Dcs (map_get zero_env env (cfg_Environments config)))))).

(** [app.Action]. The legacy branch decodes [configV1] but, as the Go code
    does, goes on printing from [config]. *)
Definition action (order : range_order) (w : World) (a : Args) : M unit :=
  enableMlock (a_mlock a) ;;
  if String.eqb (a_env a) EmptyString then exit_error "environment is required" EnvErrorCode
  else
    emit (EReadFile (a_varsFile a)) ;;
    match files w (a_varsFile a) with
    | None => exit_error (cat ["unable to read variable file "; a_varsFile a]) 4
    | Some yamlFile =>
      let '(config, ok) := yaml_Unmarshal_Config yamlFile in
      if ok then print_config order (store w) false config (a_env a) (a_dc a)
      else
        let '(configV1, ok1) := yaml_Unmarshal_ConfigV1 yamlFile in
        if ok1 then print_config order (store w) true config (a_env a) (a_dc a)
        else emit EStdoutYamlError ;; exit_error "unable to unmarshal yaml" YamlErrorCode
    end.

End Emission.

(** ** Observations used to state the properties *)

(** Go's iteration order for a map taken as the order of its entries. *)
Definition insertion_order : range_order := fun _ l => l.

(** A Unicode table, used only on inputs whose runes are at most U+00FF,
    where [IsPrint] does not consult it. *)
Definition no_table : Z -> bool := fun _ => false.

Definition secret_data (r : vault_reply) : gomap jvalue :=
  match r with VSecret d => d | _ => [] end.

Definition var_events (uprint : Z -> bool) (l : list (string * string)) : list event :=
  map (fun kv => EStdout (var_line uprint (fst kv) (snd kv))) l.

(** The stdout lines of a bucket of secrets when every fetch succeeds. *)
Definition secret_stdout (uprint : Z -> bool) (store : string -> vault_reply)
    (l : list (string * string)) : list event :=
  map (fun kv => EStdout (secret_line uprint (fst kv) (secret_data (store (snd kv))) (snd kv))) l.

(** A banner line with the export lines printed under it. *)
Definition section : Type := (event * list event)%type.

Definition flat (secs : list section) : list event :=
  concat (map (fun s => fst s :: snd s) secs).

(** Same banners in the same order, each with the same export lines up to
    their order. *)
Definition same_up_to_order (s1 s2 : list section) : Prop :=
  Forall2 (fun a b => fst a = fst b /\ Permutation (snd a) (snd b)) s1 s2.

Definition env_of (config : Config) (env : string) : EnvV2 :=
  map_get zero_env env (cfg_Environments config).

Definition dc_of (config : Config) (env dc : string) : DcV2 :=
  map_get zero_dc dc (env_Dcs (env_of config env)).

(** The datacenter part of the output, banners and exports. *)
Definition dc_sections (uprint : Z -> bool) (order : range_order)
    (store : string -> vault_reply) (legacy : bool) (config : Config) (env dc : string)
  : list section :=
  if legacy then
    if String.eqb dc EmptyString then []
    else [(EStdout (cat ["# Datacenter ("; dc; ") Specific Vars:"]),
           var_events uprint (order 5 (dc_Vars (dc_of config env dc))))]
  else
    [(EStdout (cat ["# Datacenter ("; env; ") Specific Vars:"]),
      var_events uprint (order 5 (dc_Vars (dc_of config env dc))));
     (EStdout (cat ["# Datacenter ("; env; ") Specific Secrets:"]),
      secret_stdout uprint store (order 6 (dc_Secrets (dc_of config env dc))))].

(** The whole output of [print_config] when every fetch succeeds. *)
Definition config_sections (uprint : Z -> bool) (order : range_order)
    (store : string -> vault_reply) (legacy : bool) (config : Config) (env dc : string)
  : list section :=
  [(EStdout "# Setting Variables for:", []);
   (EStdout (cat ["# Environment: "; env]), [])]
  ++ (if String.eqb dc EmptyString then [] else [(EStdout (cat ["# Datacenter: "; dc]), [])])
  ++ [(EStdout "# Global Vars:", var_events uprint (order 1 (cfg_Vars config)));
      (EStdout "# Global Secrets:", secret_stdout uprint store (order 2 (cfg_Secrets config)));
      (EStdout (cat ["# Environment ("; env; ") Vars:"]),
        var_events uprint (order 3 (env_Vars (env_of config env))));
      (EStdout (cat ["# Environment ("; env; ") Secrets:"]),
        secret_stdout uprint store (order 4 (env_Secrets (env_of config env))))]
  ++ dc_sections uprint order store legacy config env dc.

(** The banners alone of the datacenter part. *)
Definition dc_banners (legacy : bool) (env dc : string) : list event :=
  map fst (dc_sections no_table insertion_order (fun _ => VNoSecret) legacy zero_config env dc).

(** *** Failing fetches *)

(** A fetch of a failing path is the last event but the error message, and
    the run exits with [VaultErrorCode]. *)
Definition aborts_at_fetch {A} (store : string -> vault_reply) (m : M A) : Prop :=
  forall pre p post, fst m = pre ++ EGetSecret p :: post -> vault_ok (store p) = false ->
    exists msg, post = [EStderr msg] /\ snd m = Exit msg VaultErrorCode.

(** An exit with [VaultErrorCode] comes from a failing fetch. *)
Definition exit6_from_fetch {A} (store : string -> vault_reply) (m : M A) : Prop :=
  forall msg, snd m = Exit msg VaultErrorCode ->
    exists pre p, fst m = pre ++ [EGetSecret p; EStderr msg] /\ vault_ok (store p) = false.

Definition fetch_inv {A} (store : string -> vault_reply) (m : M A) : Prop :=
  aborts_at_fetch store m /\ exit6_from_fetch store m.

(** [m] is [m'] cut at a failing fetch: equal, or [m] exits with
    [VaultErrorCode] after events that [m'] starts with. *)
Definition cut_of {A} (m m' : M A) : Prop :=
  m = m' \/
  exists es msg rest, fst m = es ++ [EStderr msg] /\ snd m = Exit msg VaultErrorCode
                      /\ fst m' = es ++ rest.

(** *** The legacy form of a document *)

(** A datacenter value flattened to its plain vars mapping. *)
Definition flatten_dc (v : yaml) : yaml :=
  match v with
  | YMap kvs => YMap (map (fun kv => (fst kv, YScalar (snd kv)))
                          (dc_Vars (fst (dc_fields kvs zero_dc true))))
  | _ => v
  end.

Definition flatten_dcs (n : yaml) : yaml :=
  match n with
  | YMap kvs => YMap (map (fun kv => (fst kv, flatten_dc (snd kv))) kvs)
  | _ => n
  end.

Definition flatten_env (n : yaml) : yaml :=
  match n with
  | YMap kvs => YMap (map (fun kv => (fst kv, if String.eqb (fst kv) "dcs"
                                              then flatten_dcs (snd kv) else snd kv)) kvs)
  | _ => n
  end.

Definition flatten_envs (n : yaml) : yaml :=
  match n with
  | YMap kvs => YMap (map (fun kv => (fst kv, flatten_env (snd kv))) kvs)
  | _ => n
  end.

(** The V1 translation of a V2 document: every datacenter value replaced by
    its vars mapping. *)
Definition v1_translation (n : yaml) : yaml :=
  match n with
  | YMap kvs => YMap (map (fun kv => (fst kv, if String.eqb (fst kv) "environments"
                                              then flatten_envs (snd kv) else snd kv)) kvs)
  | _ => n
  end.

Definition reserved_key (k : string) : bool := String.eqb k "vars" || String.eqb k "secrets".

(** No datacenter vars mapping of the document has a variable named [vars]
    or [secrets] (the field names of the V2 datacenter struct). *)
Definition dc_free (v : yaml) : bool :=
  match v with
  | YMap kvs => forallb (fun kv => negb (reserved_key (fst kv)))
                        (dc_Vars (fst (dc_fields kvs zero_dc true)))
  | _ => true
  end.

Definition dcs_free (n : yaml) : bool :=
  match n with YMap kvs => forallb (fun kv => dc_free (snd kv)) kvs | _ => true end.

Definition env_free (n : yaml) : bool :=
  match n with
  | YMap kvs => forallb (fun kv => if String.eqb (fst kv) "dcs" then dcs_free (snd kv) else true) kvs
  | _ => true
  end.

Definition envs_free (n : yaml) : bool :=
  match n with YMap kvs => forallb (fun kv => env_free (snd kv)) kvs | _ => true end.

Definition reserved_free (n : yaml) : bool :=
  match n with
  | YMap kvs => forallb (fun kv => if String.eqb (fst kv) "environments"
                                   then envs_free (snd kv) else true) kvs
  | _ => true
  end.

Definition no_dc_secrets (config : Config) : bool :=
  forallb (fun e => forallb (fun d => match dc_Secrets (snd d) with [] => true | _ => false end)
                            (env_Dcs (snd e)))
          (cfg_Environments config).

Definition map_vals {V W} (f : V -> W) (m : gomap V) : gomap W :=
  map (fun kv => (fst kv, f (snd kv))) m.

(** A configuration with every datacenter emptied. *)
Definition clear_dcs_env (e : EnvV2) : EnvV2 :=
  mkEnvV2 (env_Vars e) (env_Secrets e) (map_vals (fun _ => zero_dc) (env_Dcs e)).

Definition clear_dcs (c : Config) : Config :=
  mkConfig (cfg_Vars c) (cfg_Secrets c) (map_vals clear_dcs_env (cfg_Environments c)).

(** The output with one banner line left out. *)
Definition omit_line (line : string) (es : list event) : list event :=
  filter (fun e => match e with EStdout l => negb (String.eqb l line) | _ => true end) es.

(** *** Quoting in the words of the spec *)

(** [s] with a backslash before each double quote and backslash. *)
Fixpoint escape_dq_bs (s : string) : string :=
  match s with
  | EmptyString => EmptyString
  | String c t =>
      if (nat_of_ascii c =? 34)%nat || (nat_of_ascii c =? 92)%nat
      then String (ascii_of_nat 92) (String c (escape_dq_bs t))
      else String c (escape_dq_bs t)
  end.

Definition printable_ascii (s : string) : bool :=
  forallb (fun c => (32 <=? nat_of_ascii c)%nat && (nat_of_ascii c <=? 126)%nat)
          (list_ascii_of_string s).

(** The loader's choice for a document: [Some false] when the V2 decode
    succeeds, [Some true] (legacy) when only the V1 decode does, [None] when
    both fail. *)
Definition legacy_of (doc : document) : option bool :=
  if snd (yaml_Unmarshal_Config doc) then Some false
  else if snd (yaml_Unmarshal_ConfigV1 doc) then Some true
  else None.

Definition mlock_events (mlockBool : bool) : list event :=
  if mlockBool then [EMlock] else [].

(** [m2] is [m1] without the events [X]: same ending, same events, or the
    events of [m1] with [X] taken out at one place. *)
Definition drops {A} (X : list event) (m1 m2 : M A) : Prop :=
  snd m1 = snd m2 /\
  (fst m1 = fst m2 \/ exists pre post, fst m1 = pre ++ X ++ post /\ fst m2 = pre ++ post).

(** An iteration order that visits every entry of the map once. *)
Definition perm_order (order : range_order) : Prop :=
  forall b l, Permutation (order b l) l.

(** *** Shapes of the output *)

(** A character printed as itself inside a Go string literal: no control
    character and no DEL. *)
Definition visible (c : ascii) : bool :=
  (32 <=? nat_of_ascii c)%nat && negb (nat_of_ascii c =? 127)%nat.

(** The body of a double-quoted Go literal: visible characters, where a
    backslash always starts a two-character escape and a double quote only
    appears escaped. *)
Fixpoint well_quoted (s : string) : bool :=
  match s with
  | EmptyString => true
  | String c t =>
      visible c &&
      (if (nat_of_ascii c =? 92)%nat then
         match t with
         | String c' t' => visible c' && well_quoted t'
         | EmptyString => false
         end
       else negb (nat_of_ascii c =? 34)%nat && well_quoted t)
  end.

(** Visible characters other than the backslash and the double quote. *)
Definition plain (s : string) : bool :=
  forallb (fun c => visible c && negb (nat_of_ascii c =? 92)%nat && negb (nat_of_ascii c =? 34)%nat)
          (list_ascii_of_string s).

(** Bytes of a multi-byte UTF-8 sequence. *)
Definition all_high (s : string) : bool :=
  forallb (fun c => (128 <=? nat_of_ascii c)%nat) (list_ascii_of_string s).

(** A stdout line is a comment ([# ...]) or an export ([export ...]). *)
Definition line_shape (e : event) : bool :=
  match e with
  | EStdout l => String.prefix "# " l || String.prefix "export " l
  | _ => true
  end.

(** The paths fetched from the store, in order. *)
Fixpoint fetches (es : list event) : list string :=
  match es with
  | [] => []
  | EGetSecret p :: t => p :: fetches t
  | _ :: t => fetches t
  end.

(** The fetches of [m] are a prefix of [L], all of [L] when [m] returns. *)
Definition fetch_spec {A} (L : list string) (m : M A) : Prop :=
  (exists r, L = fetches (fst m) ++ r) /\
  (forall a, snd m = Ok a -> fetches (fst m) = L).

(** An exit of [m] has one of the [codes] and its message is the last event. *)
Definition exits_clean {A} (codes : list nat) (m : M A) : Prop :=
  match snd m with
  | Ok _ => True
  | Exit msg c => In c codes /\ exists pre, fst m = pre ++ [EStderr msg]
  end.

(** The error [GetVaultSecret] returns for a reply, as its message. *)
Definition vault_error (path : string) (r : vault_reply) : option string :=
  match r with
  | VClientError e => Some (cat ["Vault - Client Error: "; e])
  | VReadError e => Some (cat ["Vault - Read Error: "; e])
  | VNoSecret => Some (cat ["Vault - No secret at path: "; path])
  | VSecret _ => None
  end.

(** Every stdout line of a run has one of the shapes of [line_shape]. *)
Definition shaped {A} (m : M A) : Prop := forallb line_shape (fst m) = true.

(** An exit with [VaultErrorCode] reports the error of the last fetch. *)
Definition vault_exit (store : string -> vault_reply) {A} (m : M A) : Prop :=
  forall msg, snd m = Exit msg VaultErrorCode ->
    exists pre p, fst m = pre ++ [EGetSecret p; EStderr msg] /\ vault_error p (store p) = Some msg.

(** No newline in a printed string. *)
Definition nl_free (s : string) : bool :=
  forallb (fun c => negb (nat_of_ascii c =? 10)%nat) (list_ascii_of_string s).

(** A stdout print writes no newline but its own final one. *)
Definition stdout_nl_free (e : event) : bool :=
  match e with EStdout l => nl_free l | _ => true end.

Definition keys_nl_free (m : gomap string) : bool := forallb (fun kv => nl_free (fst kv)) m.

Definition paths_nl_free (m : gomap string) : bool :=
  forallb (fun kv => nl_free (fst kv) && nl_free (snd kv)) m.

(** No newline in the keys and paths printed from the buckets selected by
    [env] and [dc]. *)
Definition printed_nl_free (config : Config) (env dc : string) : bool :=
  keys_nl_free (cfg_Vars config) && paths_nl_free (cfg_Secrets config) &&
  keys_nl_free (env_Vars (env_of config env)) && paths_nl_free (env_Secrets (env_of config env)) &&
  keys_nl_free (dc_Vars (dc_of config env dc)) && paths_nl_free (dc_Secrets (dc_of config env dc)).

Definition nl_ok {A} (m : M A) : Prop := forallb stdout_nl_free (fst m) = true.

(** *** Inputs *)

Definition vars_file : string := "vars.yml".

(** A world whose only file is [vars_file]. *)
Definition file_world (doc : document) (st : string -> vault_reply) : World :=
  mkWorld (fun p => if String.eqb p vars_file then Some doc else None) st.

Definition no_store : string -> vault_reply := fun _ => VNoSecret.

(** [-e dev -d us_east]. *)
Definition dev_us_east : Args := mkArgs "dev" "us_east" vars_file false.

(** [environments: {dev: {dcs: <dcs>}}] *)
Definition env_tree (dcs : yaml) : yaml :=
  YMap [("environments", YMap [("dev", YMap [("dcs", dcs)])])].

(** [environments.dev.dcs.us_east: {REGION: us-east-1, vars: <v>}]: the V2
    decode fails on the scalar [vars], the V1 decode succeeds. *)
Definition legacy_doc (v : string) : document :=
  DocNode (env_tree (YMap [("us_east", YMap [("REGION", YScalar "us-east-1");
                                            ("vars", YScalar v)])])).

(** [environments.dev.dcs.us_east.vars: {REGION: us-east-1}]: a V2 document. *)
Definition dc_vars_doc : yaml :=
  env_tree (YMap [("us_east", YMap [("vars", YMap [("REGION", YScalar "us-east-1")])])]).

(** [secrets: {A: pa, B: pb}] *)
Definition two_secrets_doc : document :=
  DocNode (YMap [("secrets", YMap [("A", YScalar "pa"); ("B", YScalar "pb")])]).

Definition value_data (s : string) : gomap jvalue := [("value", JString s)].

(** [pa] holds a secret, [pb] holds none. *)
Definition half_store : string -> vault_reply :=
  fun p => if String.eqb p "pa" then VSecret (value_data "a") else VNoSecret.

Definition full_store : string -> vault_reply :=
  fun p => if String.eqb p "pa" then VSecret (value_data "a") else VSecret (value_data "b").


(** Every path holds a secret without a [value] entry. *)
Definition novalue_store : string -> vault_reply := fun _ => VSecret [("other", JString "x")].

(** * Lemmas about the monad and the loops *)

Lemma bind_ok {A B} (es : list event) (a : A) (f : A -> M B) :
  bind (es, Ok a) f = (es ++ fst (f a), snd (f a)).
Proof. simpl. destruct (f a); reflexivity. Qed.

Lemma bind_exit {A B} (es : list event) msg c (f : A -> M B) :
  bind (es, Exit msg c) f = (es, Exit msg c).
Proof. reflexivity. Qed.

Lemma stdout_app (l1 l2 : list event) : stdout (l1 ++ l2) = stdout l1 ++ stdout l2.
Proof. unfold stdout. apply filter_app. Qed.

Lemma stdout_line (l : string) (r : list event) :
  stdout (EStdout l :: r) = EStdout l :: stdout r.
Proof. reflexivity. Qed.

Lemma flat_app (s1 s2 : list section) : flat (s1 ++ s2) = flat s1 ++ flat s2.
Proof. unfold flat. rewrite map_app, concat_app. reflexivity. Qed.

Lemma range_vars_eq uprint l :
  range_vars uprint l = (var_events uprint l, Ok tt).
Proof.
  induction l as [|[k v] t IH]; [reflexivity|].
  simpl. rewrite IH. reflexivity.
Qed.

Lemma stdout_var_events uprint l : stdout (var_events uprint l) = var_events uprint l.
Proof. induction l as [|x t IH]; simpl; [reflexivity|]. rewrite IH. reflexivity. Qed.

Lemma emit_secret_ok uprint store k p :
  vault_ok (store p) = true ->
  emit_secret uprint store k p
  = ([EGetSecret p; EStdout (secret_line uprint k (secret_data (store p)) p)], Ok tt).
Proof.
  intros H. unfold emit_secret, GetVaultSecret.
  destruct (store p); try discriminate. reflexivity.
Qed.

Lemma emit_secret_fail uprint store k p :
  vault_ok (store p) = false ->
  exists err, emit_secret uprint store k p = ([EGetSecret p; EStderr err], Exit err VaultErrorCode).
Proof.
  intros H. unfold emit_secret, GetVaultSecret.
  destruct (store p); try discriminate; eexists; reflexivity.
Qed.

(** A bucket of secrets when every fetch succeeds. *)
Lemma range_secrets_ok uprint store l :
  (forall p, vault_ok (store p) = true) ->
  exists es, range_secrets uprint store l = (es, Ok tt)
             /\ stdout es = secret_stdout uprint store l.
Proof.
  intros Hs. induction l as [|[k p] t [es [IH1 IH2]]]; [exists []; split; reflexivity|].
  simpl range_secrets. rewrite (emit_secret_ok uprint store k p (Hs p)), bind_ok, IH1.
  eexists; split; [reflexivity|]. simpl. rewrite IH2. reflexivity.
Qed.

(** The output of [print_config] when every fetch succeeds. *)
Lemma print_config_ok uprint order store legacy config env dc :
  (forall p, vault_ok (store p) = true) ->
  exists es, print_config uprint order store legacy config env dc = (es, Ok tt) /\
    stdout es = flat (config_sections uprint order store legacy config env dc).
Proof.
  intros Hs. unfold print_config, config_sections, dc_sections, dc_of, env_of.
  rewrite !range_vars_eq.
  destruct (range_secrets_ok uprint store (order 2 (cfg_Secrets config)) Hs) as [e2 [R2 S2]].
  destruct (range_secrets_ok uprint store
              (order 4 (env_Secrets (map_get zero_env env (cfg_Environments config)))) Hs)
    as [e4 [R4 S4]].
  destruct (range_secrets_ok uprint store
              (order 6 (dc_Secrets (map_get zero_dc dc
                 (env_Dcs (map_get zero_env env (cfg_Environments config)))))) Hs)
    as [e6 [R6 S6]].
  rewrite R2, R4, R6.
  destruct (String.eqb dc EmptyString), legacy; simpl;
    (eexists; split; [reflexivity|]);
    unfold flat; simpl;
    repeat (rewrite stdout_app || rewrite stdout_line);
    rewrite ?stdout_var_events, ?S2, ?S4, ?S6, ?app_nil_r; reflexivity.
Qed.

(** The action once the file has been read and decoded. *)
Lemma action_decoded uprint order w a doc legacy :
  a_env a <> EmptyString -> files w (a_varsFile a) = Some doc ->
  legacy_of doc = Some legacy ->
  action uprint order w a =
    (mlock_events (a_mlock a) ++ EReadFile (a_varsFile a)
       :: fst (print_config uprint order (store w) legacy (fst (yaml_Unmarshal_Config doc))
                 (a_env a) (a_dc a)),
     snd (print_config uprint order (store w) legacy (fst (yaml_Unmarshal_Config doc))
            (a_env a) (a_dc a))).
Proof.
  intros He Hf Hl. unfold action, legacy_of in *.
  apply String.eqb_neq in He. rewrite He, Hf.
  destruct (yaml_Unmarshal_Config doc) as [config ok] eqn:E2.
  destruct (yaml_Unmarshal_ConfigV1 doc) as [config1 ok1] eqn:E1.
  simpl in Hl.
  destruct ok; [injection Hl as <-|destruct ok1; [injection Hl as <-|discriminate]];
  destruct (a_mlock a); simpl;
  destruct (print_config _ _ _ _ _ _ _); reflexivity.
Qed.

(** * Failing fetches end the run *)

Lemma two_events_split x y pre q post :
  [x; y] = pre ++ EGetSecret q :: post ->
  (pre = [] /\ x = EGetSecret q /\ post = [y]) \/ (pre = [x] /\ y = EGetSecret q /\ post = []).
Proof.
  intros H. destruct pre as [|a [|b pre]]; simpl in H.
  - left. injection H as -> <-. auto.
  - right. injection H as -> -> <-. auto.
  - injection H as _ _ H. destruct pre; discriminate.
Qed.

Section FetchInvariant.

Variable store : string -> vault_reply.

Lemma fetch_inv_bind {A B} (m : M A) (f : A -> M B) :
  fetch_inv store m -> (forall a, fetch_inv store (f a)) -> fetch_inv store (bind m f).
Proof.
  intros [Hm1 Hm2] Hf. destruct m as [es [a|msg c]].
  - rewrite bind_ok. split.
    + intros pre p post H Hp. simpl in H.
      apply app_eq_app in H as [l [[H1 H2]|[H1 H2]]].
      * destruct l as [|x l'].
        -- simpl in H2. rewrite app_nil_r in H1. subst es.
           destruct (Hf a) as [Hfa _].
           destruct (Hfa [] p post (eq_sym H2) Hp) as [msg [Hpost Hsnd]].
           exists msg. split; assumption.
        -- simpl in H2. injection H2 as <- _.
           destruct (Hm1 pre p l' H1 Hp) as [msg [_ Hsnd]]. discriminate.
      * destruct (Hf a) as [Hfa _].
        exact (Hfa l p post H2 Hp).
    + intros msg H. simpl in H. destruct (Hf a) as [_ Hfa].
      destruct (Hfa msg H) as [pre [p [Hes Hp]]].
      exists (es ++ pre), p. split; [|assumption]. simpl. rewrite Hes, app_assoc. reflexivity.
  - rewrite bind_exit. split.
    + intros pre p post H Hp. destruct (Hm1 pre p post H Hp) as [m0 [Hpost Hs]].
      simpl in Hs. injection Hs as -> ->. exists m0. split; reflexivity + assumption.
    + intros m0 H. simpl in H. injection H as -> ->. exact (Hm2 m0 eq_refl).
Qed.

Lemma fetch_inv_ret {A} (a : A) : fetch_inv store (ret a).
Proof.
  split.
  - intros pre p post H. destruct pre; discriminate.
  - intros msg H. discriminate.
Qed.

Lemma fetch_inv_emit (e : event) :
  (forall p, e <> EGetSecret p) -> fetch_inv store (emit e).
Proof.
  intros He. split.
  - intros pre p post H. destruct pre as [|x [|y pre]]; simpl in H; try discriminate.
    injection H as H. exfalso. exact (He p H).
  - intros msg H. discriminate.
Qed.

Lemma fetch_inv_exit_error {A} msg c :
  c <> VaultErrorCode -> fetch_inv store (@exit_error A msg c).
Proof.
  intros Hc. split.
  - intros pre p post H. destruct pre as [|x [|y pre]]; simpl in H; discriminate.
  - intros msg' H. simpl in H. injection H as _ H. contradiction.
Qed.

Lemma fetch_inv_emit_secret uprint k p : fetch_inv store (emit_secret uprint store k p).
Proof.
  destruct (vault_ok (store p)) eqn:Hp.
  - rewrite (emit_secret_ok uprint store k p Hp). split.
    + intros pre q post H Hq. simpl in H.
      destruct (two_events_split _ _ _ _ _ H) as [[_ [Hx _]]|[_ [Hy _]]]; [|discriminate].
      injection Hx as <-. rewrite Hp in Hq. discriminate.
    + intros m0 H. discriminate.
  - destruct (emit_secret_fail uprint store k p Hp) as [err ->]. split.
    + intros pre q post H Hq. simpl in H.
      destruct (two_events_split _ _ _ _ _ H) as [[_ [_ Hpost]]|[_ [Hy _]]]; [|discriminate].
      exists err. split; [exact Hpost|reflexivity].
    + intros m0 H. simpl in H. injection H as <-. exists [], p. split; [reflexivity|exact Hp].
Qed.

Lemma fetch_inv_range_vars uprint l : fetch_inv store (range_vars uprint l).
Proof.
  induction l as [|[k v] t IH]; cbn [range_vars].
  - apply fetch_inv_ret.
  - apply fetch_inv_bind; [apply fetch_inv_emit; discriminate|intros _; exact IH].
Qed.

Lemma fetch_inv_range_secrets uprint l : fetch_inv store (range_secrets uprint store l).
Proof.
  induction l as [|[k p] t IH]; cbn [range_secrets].
  - apply fetch_inv_ret.
  - apply fetch_inv_bind; [apply fetch_inv_emit_secret|intros _; exact IH].
Qed.

Lemma fetch_inv_println line : fetch_inv store (println line).
Proof. apply fetch_inv_emit. discriminate. Qed.

Lemma fetch_inv_when b m : fetch_inv store m -> fetch_inv store (when b m).
Proof. intros H. destruct b; [exact H|apply fetch_inv_ret]. Qed.

Ltac fetch_steps :=
  repeat first
    [ apply fetch_inv_bind; [|intros _]
    | apply fetch_inv_when
    | apply fetch_inv_println
    | apply fetch_inv_range_vars
    | apply fetch_inv_range_secrets
    | apply fetch_inv_ret
    | apply fetch_inv_emit; discriminate
    | apply fetch_inv_exit_error; discriminate ].

Lemma fetch_inv_print_config uprint order legacy config env dc :
  fetch_inv store (print_config uprint order store legacy config env dc).
Proof. unfold print_config. destruct legacy; fetch_steps. Qed.

End FetchInvariant.

Lemma fetch_inv_action uprint order w a : fetch_inv (store w) (action uprint order w a).
Proof.
  unfold action, enableMlock.
  apply fetch_inv_bind; [destruct (a_mlock a); [apply fetch_inv_emit; discriminate|apply fetch_inv_ret]|intros _].
  destruct (String.eqb (a_env a) EmptyString); [apply fetch_inv_exit_error; discriminate|].
  apply fetch_inv_bind; [apply fetch_inv_emit; discriminate|intros _].
  destruct (files w (a_varsFile a)) as [doc|]; [|apply fetch_inv_exit_error; discriminate].
  destruct (yaml_Unmarshal_Config doc) as [config ok].
  destruct ok; [apply fetch_inv_print_config|].
  destruct (yaml_Unmarshal_ConfigV1 doc) as [config1 ok1].
  destruct ok1; [apply fetch_inv_print_config|].
  apply fetch_inv_bind; [apply fetch_inv_emit; discriminate|intros _].
  apply fetch_inv_exit_error; discriminate.
Qed.

(** * A run against a store that fails is cut short at the failure *)

Section Cut.

Variables store store' : string -> vault_reply.
(** [store'] answers like [store] where [store] succeeds, and succeeds everywhere. *)
Hypothesis Hagree : forall p, vault_ok (store p) = true -> store' p = store p.
Hypothesis Hall : forall p, vault_ok (store' p) = true.

Lemma cut_refl {A} (m : M A) : cut_of m m.
Proof. left. reflexivity. Qed.

Lemma cut_bind {A B} (m m' : M A) (f g : A -> M B) :
  cut_of m m' -> (forall a, cut_of (f a) (g a)) -> cut_of (bind m f) (bind m' g).
Proof.
  intros [<-|[es [msg [rest [H1 [H2 H3]]]]]] Hfg.
  - destruct m as [es [a|msg c]].
    + rewrite !bind_ok.
      destruct (Hfg a) as [Heq|[es2 [msg [rest [H1 [H2 H3]]]]]].
      * rewrite Heq. left. reflexivity.
      * right. exists (es ++ es2), msg, rest. simpl.
        rewrite H1, H2, H3, !app_assoc. auto.
    + rewrite !bind_exit. left. reflexivity.
  - destruct m as [esm rm]. simpl in H1, H2. subst esm rm.
    rewrite bind_exit. right. exists es, msg.
    destruct m' as [es' [a|msg' c]]; simpl in H3; subst es'.
    + rewrite bind_ok. exists (rest ++ fst (g a)). simpl. rewrite app_assoc. auto.
    + rewrite bind_exit. exists rest. auto.
Qed.

Lemma cut_when b (m m' : M unit) : cut_of m m' -> cut_of (when b m) (when b m').
Proof. intros H. destruct b; [exact H|apply cut_refl]. Qed.

Lemma cut_emit_secret uprint k p :
  cut_of (emit_secret uprint store k p) (emit_secret uprint store' k p).
Proof.
  destruct (vault_ok (store p)) eqn:Hp.
  - left. unfold emit_secret, GetVaultSecret. rewrite (Hagree p Hp). reflexivity.
  - destruct (emit_secret_fail uprint store k p Hp) as [err ->].
    rewrite (emit_secret_ok uprint store' k p (Hall p)).
    right. exists [EGetSecret p], err. eexists. simpl. auto.
Qed.

Lemma cut_range_secrets uprint l :
  cut_of (range_secrets uprint store l) (range_secrets uprint store' l).
Proof.
  induction l as [|[k p] t IH]; cbn [range_secrets].
  - apply cut_refl.
  - apply cut_bind; [apply cut_emit_secret|intros _; exact IH].
Qed.

Lemma cut_print_config uprint order legacy config env dc :
  cut_of (print_config uprint order store legacy config env dc)
         (print_config uprint order store' legacy config env dc).
Proof.
  unfold print_config.
  destruct legacy;
  repeat first [ apply cut_refl
               | apply cut_bind; [|intros _]
               | apply cut_when
               | apply cut_range_secrets ].
Qed.

End Cut.

Lemma cut_action uprint order w a store' :
  (forall p, vault_ok (store w p) = true -> store' p = store w p) ->
  (forall p, vault_ok (store' p) = true) ->
  cut_of (action uprint order w a) (action uprint order (mkWorld (files w) store') a).
Proof.
  intros Hagree Hall. unfold action. cbn [files store].
  apply cut_bind; [apply cut_refl|intros _].
  destruct (String.eqb (a_env a) EmptyString); [apply cut_refl|].
  apply cut_bind; [apply cut_refl|intros _].
  destruct (files w (a_varsFile a)) as [doc|]; [|apply cut_refl].
  destruct (yaml_Unmarshal_Config doc) as [config ok].
  destruct ok; [apply cut_print_config; assumption|].
  destruct (yaml_Unmarshal_ConfigV1 doc) as [config1 ok1].
  destruct ok1; [apply cut_print_config; assumption|apply cut_refl].
Qed.

(** * Decoding the V1 translation of a V2 document *)

Lemma map_set_vals {V W} (f : V -> W) k e (m : gomap V) :
  map_set k (f e) (map_vals f m) = map_vals f (map_set k e m).
Proof.
  induction m as [|[k' v'] t IH]; simpl; [reflexivity|].
  destruct (String.eqb k k'); simpl; [reflexivity|]. rewrite IH. reflexivity.
Qed.

Lemma map_get_vals {V W} (f : V -> W) z k (m : gomap V) :
  map_get (f z) k (map_vals f m) = f (map_get z k m).
Proof.
  induction m as [|[k' v'] t IH]; simpl; [reflexivity|].
  destruct (String.eqb k k'); [reflexivity|exact IH].
Qed.

Ltac mono_tac IH :=
  simpl;
  repeat match goal with
         | |- context [String.eqb ?a ?b] => destruct (String.eqb a b)
         | |- context [match ?x with (_, _) => _ end] =>
             let p := fresh in destruct x as [p ?]; try destruct p
         end;
  rewrite ?andb_false_l; apply IH.

Lemma dcs_entries_false kvs m : snd (dcs_entries kvs m false) = false.
Proof. revert m; induction kvs as [|[k v] t IH]; intros m; [reflexivity|mono_tac IH]. Qed.

Lemma env_fields_false kvs e : snd (env_fields kvs e false) = false.
Proof. revert e; induction kvs as [|[k v] t IH]; intros e; [reflexivity|mono_tac IH]. Qed.

Lemma envs_entries_false kvs m : snd (envs_entries kvs m false) = false.
Proof. revert m; induction kvs as [|[k v] t IH]; intros m; [reflexivity|mono_tac IH]. Qed.

Lemma config_fields_false kvs c : snd (config_fields kvs c false) = false.
Proof. revert c; induction kvs as [|[k v] t IH]; intros c; [reflexivity|mono_tac IH]. Qed.

Lemma dc_fields_skip l d ok :
  forallb (fun kv => negb (reserved_key (fst kv))) l = true ->
  dc_fields (map (fun kv => (fst kv, YScalar (snd kv))) l) d ok = (d, ok).
Proof.
  revert d ok; induction l as [|[k v] t IH]; intros d ok H; simpl; [reflexivity|].
  simpl in H. apply andb_prop in H as [Hk Ht].
  unfold reserved_key in Hk. apply negb_true_iff, orb_false_iff in Hk as [H1 H2].
  rewrite H1, H2. apply IH, Ht.
Qed.

Lemma dc_flat v :
  dc_free v = true -> snd (unmarshal_dc v zero_dc) = true ->
  unmarshal_dc (flatten_dc v) zero_dc = (zero_dc, snd (fst (unmarshal_dc v zero_dc)), true).
Proof.
  destruct v as [|s|items|kvs]; simpl; intros Hf Hok; try discriminate; [reflexivity|].
  rewrite dc_fields_skip by exact Hf. simpl.
  destruct (dc_fields kvs zero_dc true). reflexivity.
Qed.

Lemma dcs_entries_flat kvs m ok :
  forallb (fun kv => dc_free (snd kv)) kvs = true ->
  snd (dcs_entries kvs m ok) = true ->
  dcs_entries (map (fun kv => (fst kv, flatten_dc (snd kv))) kvs)
              (map_vals (fun _ => zero_dc) m) ok
  = (map_vals (fun _ => zero_dc) (fst (dcs_entries kvs m ok)), true).
Proof.
  revert m ok; induction kvs as [|[k v] t IH]; intros m ok Hf Hok.
  - simpl in *. subst ok. reflexivity.
  - simpl in Hf. apply andb_prop in Hf as [Hv Ht]. simpl in Hok |- *.
    destruct (unmarshal_dc v zero_dc) as [[e good] ok'] eqn:Ev.
    assert (Hacc : ok && ok' = true).
    { destruct (ok && ok'); [reflexivity|]. rewrite dcs_entries_false in Hok. discriminate. }
    assert (Hv' : snd (unmarshal_dc v zero_dc) = true).
    { rewrite Ev. apply andb_prop in Hacc as [_ H]. exact H. }
    rewrite (dc_flat v Hv Hv'), Ev. simpl.
    apply andb_prop in Hacc as [-> ->]. simpl.
    replace (if good then map_set k zero_dc (map_vals (fun _ : DcV2 => zero_dc) m)
             else map_vals (fun _ : DcV2 => zero_dc) m)
      with (map_vals (fun _ : DcV2 => zero_dc) (if good then map_set k e m else m))
      by (destruct good; [symmetry; apply (map_set_vals (fun _ : DcV2 => zero_dc))|reflexivity]).
    apply IH; [exact Ht|exact Hok].
Qed.

Lemma unmarshal_dcs_flat n out :
  dcs_free n = true -> snd (unmarshal_dcs n out) = true ->
  unmarshal_dcs (flatten_dcs n) (map_vals (fun _ => zero_dc) out)
  = (map_vals (fun _ => zero_dc) (fst (fst (unmarshal_dcs n out))),
     snd (fst (unmarshal_dcs n out)), true).
Proof.
  destruct n as [|s|items|kvs]; simpl; intros Hf Hok; try discriminate; [reflexivity|].
  assert (Hok' : snd (dcs_entries kvs out true) = true)
    by (destruct (dcs_entries kvs out true); exact Hok).
  rewrite (dcs_entries_flat kvs out true Hf Hok').
  destruct (dcs_entries kvs out true). reflexivity.
Qed.

Ltac acc_true Hok lemma :=
  match type of Hok with
  | snd (_ _ _ (?o && ?o')) = true =>
      let H := fresh "Hacc" in
      assert (H : o && o' = true)
        by (destruct (o && o'); [reflexivity|rewrite lemma in Hok; discriminate]);
      apply andb_prop in H as [-> ->]
  end.

Lemma env_fields_flat kvs e ok :
  forallb (fun kv => if String.eqb (fst kv) "dcs" then dcs_free (snd kv) else true) kvs = true ->
  snd (env_fields kvs e ok) = true ->
  env_fields (map (fun kv => (fst kv, if String.eqb (fst kv) "dcs"
                                      then flatten_dcs (snd kv) else snd kv)) kvs)
             (clear_dcs_env e) ok
  = (clear_dcs_env (fst (env_fields kvs e ok)), true).
Proof.
  revert e ok; induction kvs as [|[k v] t IH]; intros e ok Hf Hok.
  - simpl in *. subst ok. reflexivity.
  - simpl in Hf. apply andb_prop in Hf as [Hv Ht]. simpl in Hok |- *.
    destruct (String.eqb k "vars") eqn:Kv.
    + apply String.eqb_eq in Kv. subst k. simpl in *.
      destruct (unmarshal_strmap v (env_Vars e)) as [[m g] ok'] eqn:E.
      acc_true Hok env_fields_false.
      exact (IH (mkEnvV2 m (env_Secrets e) (env_Dcs e)) true Ht Hok).
    + destruct (String.eqb k "secrets") eqn:Ks.
      * apply String.eqb_eq in Ks. subst k. simpl in *.
        destruct (unmarshal_strmap v (env_Secrets e)) as [[m g] ok'] eqn:E.
        acc_true Hok env_fields_false.
        exact (IH (mkEnvV2 (env_Vars e) m (env_Dcs e)) true Ht Hok).
      * destruct (String.eqb k "dcs") eqn:Kd.
        -- simpl.
           destruct (unmarshal_dcs v (env_Dcs e)) as [[m g] ok'] eqn:E.
           assert (Hv' : snd (unmarshal_dcs v (env_Dcs e)) = true).
           { rewrite E. acc_true Hok env_fields_false. reflexivity. }
           rewrite (unmarshal_dcs_flat v (env_Dcs e) Hv Hv'), E. simpl.
           acc_true Hok env_fields_false.
           exact (IH (mkEnvV2 (env_Vars e) (env_Secrets e) m) true Ht Hok).
        -- exact (IH e ok Ht Hok).
Qed.

Lemma unmarshal_env_flat n out :
  env_free n = true -> snd (unmarshal_env n out) = true ->
  unmarshal_env (flatten_env n) (clear_dcs_env out)
  = (clear_dcs_env (fst (fst (unmarshal_env n out))), snd (fst (unmarshal_env n out)), true).
Proof.
  destruct n as [|s|items|kvs]; simpl; intros Hf Hok; try discriminate; [reflexivity|].
  assert (Hok' : snd (env_fields kvs out true) = true)
    by (destruct (env_fields kvs out true); exact Hok).
  rewrite (env_fields_flat kvs out true Hf Hok').
  destruct (env_fields kvs out true). reflexivity.
Qed.

Lemma envs_entries_flat kvs m ok :
  forallb (fun kv => env_free (snd kv)) kvs = true ->
  snd (envs_entries kvs m ok) = true ->
  envs_entries (map (fun kv => (fst kv, flatten_env (snd kv))) kvs) (map_vals clear_dcs_env m) ok
  = (map_vals clear_dcs_env (fst (envs_entries kvs m ok)), true).
Proof.
  revert m ok; induction kvs as [|[k v] t IH]; intros m ok Hf Hok.
  - simpl in *. subst ok. reflexivity.
  - simpl in Hf. apply andb_prop in Hf as [Hv Ht]. simpl in Hok |- *.
    destruct (unmarshal_env v zero_env) as [[e good] ok'] eqn:Ev.
    assert (Hacc : ok && ok' = true).
    { destruct (ok && ok'); [reflexivity|]. rewrite envs_entries_false in Hok. discriminate. }
    assert (Hv' : snd (unmarshal_env v zero_env) = true).
    { rewrite Ev. apply andb_prop in Hacc as [_ H]. exact H. }
    assert (Hz : unmarshal_env (flatten_env v) zero_env = (clear_dcs_env e, good, true)).
    { pose proof (unmarshal_env_flat v zero_env Hv Hv') as H. rewrite Ev in H. exact H. }
    rewrite Hz. simpl.
    apply andb_prop in Hacc as [-> ->]. simpl.
    replace (if good then map_set k (clear_dcs_env e) (map_vals clear_dcs_env m)
             else map_vals clear_dcs_env m)
      with (map_vals clear_dcs_env (if good then map_set k e m else m))
      by (destruct good; [symmetry; apply map_set_vals|reflexivity]).
    apply IH; [exact Ht|exact Hok].
Qed.

Lemma unmarshal_envs_flat n out :
  envs_free n = true -> snd (unmarshal_envs n out) = true ->
  unmarshal_envs (flatten_envs n) (map_vals clear_dcs_env out)
  = (map_vals clear_dcs_env (fst (fst (unmarshal_envs n out))),
     snd (fst (unmarshal_envs n out)), true).
Proof.
  destruct n as [|s|items|kvs]; simpl; intros Hf Hok; try discriminate; [reflexivity|].
  assert (Hok' : snd (envs_entries kvs out true) = true)
    by (destruct (envs_entries kvs out true); exact Hok).
  rewrite (envs_entries_flat kvs out true Hf Hok').
  destruct (envs_entries kvs out true). reflexivity.
Qed.

Lemma config_fields_flat kvs c ok :
  forallb (fun kv => if String.eqb (fst kv) "environments" then envs_free (snd kv) else true) kvs
    = true ->
  snd (config_fields kvs c ok) = true ->
  config_fields (map (fun kv => (fst kv, if String.eqb (fst kv) "environments"
                                         then flatten_envs (snd kv) else snd kv)) kvs)
                (clear_dcs c) ok
  = (clear_dcs (fst (config_fields kvs c ok)), true).
Proof.
  revert c ok; induction kvs as [|[k v] t IH]; intros c ok Hf Hok.
  - simpl in *. subst ok. reflexivity.
  - simpl in Hf. apply andb_prop in Hf as [Hv Ht]. simpl in Hok |- *.
    destruct (String.eqb k "vars") eqn:Kv.
    + apply String.eqb_eq in Kv. subst k. simpl in *.
      destruct (unmarshal_strmap v (cfg_Vars c)) as [[m g] ok'] eqn:E.
      acc_true Hok config_fields_false.
      exact (IH (mkConfig m (cfg_Secrets c) (cfg_Environments c)) true Ht Hok).
    + destruct (String.eqb k "secrets") eqn:Ks.
      * apply String.eqb_eq in Ks. subst k. simpl in *.
        destruct (unmarshal_strmap v (cfg_Secrets c)) as [[m g] ok'] eqn:E.
        acc_true Hok config_fields_false.
        exact (IH (mkConfig (cfg_Vars c) m (cfg_Environments c)) true Ht Hok).
      * destruct (String.eqb k "environments") eqn:Kd.
        -- simpl.
           destruct (unmarshal_envs v (cfg_Environments c)) as [[m g] ok'] eqn:E.
           assert (Hv' : snd (unmarshal_envs v (cfg_Environments c)) = true).
           { rewrite E. acc_true Hok config_fields_false. reflexivity. }
           rewrite (unmarshal_envs_flat v (cfg_Environments c) Hv Hv'), E. simpl.
           acc_true Hok config_fields_false.
           exact (IH (mkConfig (cfg_Vars c) (cfg_Secrets c) m) true Ht Hok).
        -- exact (IH c ok Ht Hok).
Qed.

(** The V1 translation of a V2 document without variables named [vars] or
    [secrets] in its datacenters decodes as V2, to the same configuration
    with every datacenter emptied. *)
Lemma v1_translation_decodes_as_v2 D cfg :
  reserved_free D = true ->
  yaml_Unmarshal_Config (DocNode D) = (cfg, true) ->
  yaml_Unmarshal_Config (DocNode (v1_translation D)) = (clear_dcs cfg, true).
Proof.
  destruct D as [|s|items|kvs]; simpl; intros Hf Hok; try discriminate.
  - injection Hok as <-. reflexivity.
  - assert (Hok' : snd (config_fields kvs zero_config true) = true)
      by (destruct (config_fields kvs zero_config true); injection Hok as _ H; exact H).
    pose proof (config_fields_flat kvs zero_config true Hf Hok') as H.
    change (clear_dcs zero_config) with zero_config in H. rewrite H.
    destruct (config_fields kvs zero_config true) as [c ok]. injection Hok as -> _.
    reflexivity.
Qed.

(** * Dropping the datacenter vars from a run *)

Lemma drops_refl {A} X (m : M A) : drops X m m.
Proof. split; [reflexivity|left; reflexivity]. Qed.

Lemma drops_bind_same {A B} X (m : M A) (f g : A -> M B) :
  (forall a, drops X (f a) (g a)) -> drops X (bind m f) (bind m g).
Proof.
  intros H. destruct m as [es [a|msg c]].
  - rewrite !bind_ok. destruct (H a) as [Hs [He|[pre [post [H1 H2]]]]].
    + split; [exact Hs|left]. simpl. rewrite He. reflexivity.
    + split; [exact Hs|right]. exists (es ++ pre), post. simpl.
      rewrite H1, H2, !app_assoc. auto.
  - rewrite !bind_exit. apply drops_refl.
Qed.

Lemma drops_vars uprint L (k : M unit) :
  drops (var_events uprint L) (range_vars uprint L ;; k) (range_vars uprint [] ;; k).
Proof.
  rewrite !range_vars_eq, !bind_ok. split; [reflexivity|right].
  exists [], (fst k). simpl. auto.
Qed.

Lemma map_get_in {V} (z : V) k (m : gomap V) :
  map_get z k m = z \/ In (k, map_get z k m) m.
Proof.
  induction m as [|[k' v'] t IH]; simpl; [left; reflexivity|].
  destruct (String.eqb k k') eqn:E.
  - right. left. apply String.eqb_eq in E. subst. reflexivity.
  - destruct IH as [H|H]; [left; exact H|right; right; exact H].
Qed.

Lemma no_dc_secrets_at cfg env dc :
  no_dc_secrets cfg = true -> dc_Secrets (dc_of cfg env dc) = [].
Proof.
  intros H. unfold dc_of, env_of, no_dc_secrets in *. rewrite forallb_forall in H.
  destruct (map_get_in zero_dc dc (env_Dcs (map_get zero_env env (cfg_Environments cfg))))
    as [E|E]; [rewrite E; reflexivity|].
  destruct (map_get_in zero_env env (cfg_Environments cfg)) as [E'|E'].
  - rewrite E' in E. destruct E.
  - specialize (H _ E'). rewrite forallb_forall in H. specialize (H _ E). simpl in H.
    destruct (dc_Secrets _); [reflexivity|discriminate].
Qed.

Lemma print_config_clear uprint order store cfg env dc :
  (forall b, order b [] = []) -> no_dc_secrets cfg = true ->
  drops (var_events uprint (order 5 (dc_Vars (dc_of cfg env dc))))
        (print_config uprint order store false cfg env dc)
        (print_config uprint order store false (clear_dcs cfg) env dc).
Proof.
  intros Ho Hs. pose proof (no_dc_secrets_at cfg env dc Hs) as Hd.
  unfold dc_of, env_of in *. unfold print_config. cbn [clear_dcs cfg_Vars cfg_Secrets cfg_Environments].
  assert (E1 : map_get zero_env env (map_vals clear_dcs_env (cfg_Environments cfg))
               = clear_dcs_env (map_get zero_env env (cfg_Environments cfg)))
    by exact (map_get_vals clear_dcs_env zero_env env _).
  rewrite E1. cbn [clear_dcs_env env_Vars env_Secrets env_Dcs].
  assert (E2 : forall l : gomap DcV2, map_get zero_dc dc (map_vals (fun _ => zero_dc) l) = zero_dc)
    by (intros l; exact (map_get_vals (fun _ : DcV2 => zero_dc) zero_dc dc l)).
  rewrite E2, Hd. cbn [dc_Vars dc_Secrets zero_dc]. rewrite !Ho.
  repeat (apply drops_bind_same; intros _).
  apply drops_vars.
Qed.

(** * Whole runs *)

Lemma stdout_pre b f es : stdout (mlock_events b ++ EReadFile f :: es) = stdout es.
Proof. destruct b; reflexivity. Qed.

(** A run whose file decodes, against a store where every fetch succeeds. *)
Lemma action_all_ok uprint order w a doc legacy :
  a_env a <> EmptyString -> files w (a_varsFile a) = Some doc ->
  legacy_of doc = Some legacy -> (forall p, vault_ok (store w p) = true) ->
  snd (action uprint order w a) = Ok tt /\
  stdout (fst (action uprint order w a))
  = flat (config_sections uprint order (store w) legacy (fst (yaml_Unmarshal_Config doc))
            (a_env a) (a_dc a)).
Proof.
  intros He Hf Hl Hs. rewrite (action_decoded uprint order w a doc legacy He Hf Hl).
  destruct (print_config_ok uprint order (store w) legacy (fst (yaml_Unmarshal_Config doc))
              (a_env a) (a_dc a) Hs) as [es [E S]].
  rewrite E. simpl. rewrite stdout_pre. auto.
Qed.





Lemma same_up_to_order_refl s : same_up_to_order s s.
Proof.
  unfold same_up_to_order. induction s as [|x t IH]; constructor; auto.
Qed.

Lemma flat_cons (x : section) r : flat (x :: r) = fst x :: snd x ++ flat r.
Proof. reflexivity. Qed.

Lemma flat_banners es : flat (map (fun e => (e, [])) es) = es.
Proof.
  induction es as [|e t IH]; [reflexivity|]. cbn [map]. rewrite flat_cons, IH. reflexivity.
Qed.

(** Printable ASCII is quoted by escaping the double quote and the backslash. *)
Lemma quote_chars_ascii uprint s :
  printable_ascii s = true -> quote_chars uprint s = escape_dq_bs s.
Proof.
  unfold printable_ascii. induction s as [|c s IH]; intros H; [reflexivity|].
  simpl in H. apply andb_prop in H as [Hc Hs]. specialize (IH Hs).
  destruct c as [[] [] [] [] [] [] [] []];
    try (vm_compute in Hc; discriminate Hc);
    simpl; rewrite IH; reflexivity.
Qed.

Lemma append_empty_r s : String.append s EmptyString = s.
Proof. induction s as [|c s IH]; simpl; [reflexivity|]. rewrite IH. reflexivity. Qed.

Lemma append_assoc' s1 s2 s3 :
  String.append (String.append s1 s2) s3 = String.append s1 (String.append s2 s3).
Proof. induction s1 as [|c s IH]; simpl; [reflexivity|]. rewrite IH. reflexivity. Qed.

Lemma map_get_absent {V} (z : V) k (m : gomap V) : ~ In k (map fst m) -> map_get z k m = z.
Proof.
  induction m as [|[k' v'] t IH]; simpl; intros H; [reflexivity|].
  destruct (String.eqb k k') eqn:E.
  - apply String.eqb_eq in E. subst. exfalso. apply H. left. reflexivity.
  - apply IH. intros H'. apply H. right. exact H'.
Qed.

Lemma flat_last2 s (x y : section) :
  flat (s ++ [x; y]) = flat s ++ fst x :: snd x ++ fst y :: snd y.
Proof. rewrite flat_app, !flat_cons, app_nil_r. reflexivity. Qed.

Lemma drops_prefix {A} X pre (m1 m2 : M A) :
  drops X m1 m2 -> drops X (pre ++ fst m1, snd m1) (pre ++ fst m2, snd m2).
Proof.
  intros [Hs [He|[p [q [H1 H2]]]]]; split; simpl; try assumption.
  - left. rewrite He. reflexivity.
  - right. exists (pre ++ p), q. rewrite H1, H2, !app_assoc. auto.
Qed.

(** * The claims *)

(** C1 (legacy schema, datacenter vars). For the legacy document
    [environments.dev.dcs.us_east: {REGION: us-east-1, vars: x}] with
    [-e dev -d us_east], the V2 decode fails and the V1 decode succeeds
    with datacenter vars [REGION] and [vars]; yet the run prints the banner
    [# Datacenter (us_east) Specific Vars:] with no export under it, since
    it prints from the partially decoded V2 [config], where the
    datacenter is empty. *)
Theorem C1_legacy_dc_vars_not_printed (uprint : Z -> bool) :
  legacy_of (legacy_doc "x") = Some true /\
  env1_Dcs (map_get zero_env1 "dev"
              (cfg1_Environments (fst (yaml_Unmarshal_ConfigV1 (legacy_doc "x")))))
    = [("us_east", [("REGION", "us-east-1"); ("vars", "x")])] /\
  action uprint insertion_order (file_world (legacy_doc "x") no_store) dev_us_east
    = ([EReadFile "vars.yml"; EStdout "# Setting Variables for:";
        EStdout "# Environment: dev"; EStdout "# Datacenter: us_east";
        EStdout "# Global Vars:"; EStdout "# Global Secrets:";
        EStdout "# Environment (dev) Vars:"; EStdout "# Environment (dev) Secrets:";
        EStdout "# Datacenter (us_east) Specific Vars:"], Ok tt).
Proof. split; [|split]; reflexivity. Qed.

(** C4 (schema detection). The legacy decode is attempted when the V2
    decode fails, but its result is not what gets printed: two legacy
    documents whose V1 decodes differ give the same run, for every
    iteration order and store. *)
Theorem C4_v1_result_unused (uprint : Z -> bool) (order : range_order) st :
  legacy_of (legacy_doc "x") = Some true /\ legacy_of (legacy_doc "y") = Some true /\
  fst (yaml_Unmarshal_ConfigV1 (legacy_doc "x")) <> fst (yaml_Unmarshal_ConfigV1 (legacy_doc "y")) /\
  action uprint order (file_world (legacy_doc "x") st) dev_us_east
  = action uprint order (file_world (legacy_doc "y") st) dev_us_east.
Proof.
  split; [reflexivity|split; [reflexivity|split]].
  - vm_compute. discriminate.
  - reflexivity.
Qed.

(** C7 (environment required). With an empty environment name the run
    exits with [EnvErrorCode] (2) and the message [environment is required],
    prints nothing on stdout, and neither reads a file nor fetches a secret:
    its only events are the memory lock and the message. *)
Theorem C7_env_required (uprint : Z -> bool) (order : range_order) w a :
  a_env a = EmptyString ->
  action uprint order w a
    = (mlock_events (a_mlock a) ++ [EStderr "environment is required"],
       Exit "environment is required" EnvErrorCode) /\
  exit_code (action uprint order w a) = 2 /\
  stdout (fst (action uprint order w a)) = [] /\
  (forall e, In e (fst (action uprint order w a)) -> e = EMlock \/ e = EStderr "environment is required").
Proof.
  intros He.
  assert (E : action uprint order w a
              = (mlock_events (a_mlock a) ++ [EStderr "environment is required"],
                 Exit "environment is required" EnvErrorCode))
    by (unfold action; rewrite He; destruct (a_mlock a); reflexivity).
  rewrite E. split; [reflexivity|split; [reflexivity|split]].
  - destruct (a_mlock a); reflexivity.
  - intros e. simpl. destruct (a_mlock a); simpl; intuition.
Qed.

Lemma C7_env_required_witness :
  a_env (mkArgs "" "" vars_file true) = EmptyString /\
  exit_code (action no_table insertion_order (file_world DocEmpty no_store) (mkArgs "" "" vars_file true)) = 2.
Proof.
  split; [reflexivity|].
  apply (C7_env_required no_table insertion_order (file_world DocEmpty no_store)
           (mkArgs "" "" vars_file true)).
  reflexivity.
Defined.

(** C10 (secret without a value). When a fetch returns a secret whose data
    has no [value] entry, the export line is still printed, with
    [%!q(<nil>)] in place of the value, and the loop goes on to the next
    entry. *)
Theorem C10_missing_value_printed (uprint : Z -> bool) st k p data rest :
  st p = VSecret data -> data_value data = None ->
  range_secrets uprint st ((k, p) :: rest)
  = (EGetSecret p :: EStdout (cat ["export "; k; "="; "%!q(<nil>)"; " # "; p])
       :: fst (range_secrets uprint st rest),
     snd (range_secrets uprint st rest)).
Proof.
  intros Hs Hd. cbn [range_secrets].
  rewrite (emit_secret_ok uprint st k p) by (rewrite Hs; reflexivity).
  rewrite bind_ok. unfold secret_line. rewrite Hs. simpl secret_data. rewrite Hd.
  reflexivity.
Qed.

Lemma C10_missing_value_printed_witness :
  exit_code (action no_table insertion_order (file_world two_secrets_doc novalue_store) dev_us_east) = 0 /\
  range_secrets no_table novalue_store [("A", "pa"); ("B", "pb")]
  = (EGetSecret "pa" :: EStdout (cat ["export "; "A"; "="; "%!q(<nil>)"; " # "; "pa"])
       :: fst (range_secrets no_table novalue_store [("B", "pb")]),
     snd (range_secrets no_table novalue_store [("B", "pb")])).
Proof.
  split; [vm_compute; reflexivity|].
  apply (C10_missing_value_printed no_table novalue_store "A" "pa" [("other", JString "x")]);
    reflexivity.
Defined.

(** C3 (failing fetch). In every run, a fetch that fails (client error, read
    error or no secret) is followed only by its error message on stderr and
    the run exits with [VaultErrorCode] (6); an exit with code 6 comes from
    such a fetch. Against any store [store'] that answers like the run's
    store where that one succeeds and that succeeds everywhere, the stdout
    of the run is a prefix of the stdout of the full run. *)
Theorem C3_failing_fetch_aborts (uprint : Z -> bool) (order : range_order) w a store' :
  (forall p, vault_ok (store w p) = true -> store' p = store w p) ->
  (forall p, vault_ok (store' p) = true) ->
  aborts_at_fetch (store w) (action uprint order w a) /\
  exit6_from_fetch (store w) (action uprint order w a) /\
  exists rest, stdout (fst (action uprint order (mkWorld (files w) store') a))
               = stdout (fst (action uprint order w a)) ++ rest.
Proof.
  intros Hagree Hall. destruct (fetch_inv_action uprint order w a) as [H1 H2].
  split; [exact H1|split; [exact H2|]].
  destruct (cut_action uprint order w a store' Hagree Hall) as [E|[es [msg [rest [E1 [_ E3]]]]]].
  - exists []. rewrite <- E, app_nil_r. reflexivity.
  - exists (stdout rest). rewrite E1, E3, !stdout_app. simpl. rewrite app_nil_r. reflexivity.
Qed.

Lemma C3_failing_fetch_aborts_witness :
  exit_code (action no_table insertion_order (file_world two_secrets_doc half_store) dev_us_east) = 6 /\
  exists rest,
    stdout (fst (action no_table insertion_order
                   (mkWorld (files (file_world two_secrets_doc half_store)) full_store) dev_us_east))
    = stdout (fst (action no_table insertion_order (file_world two_secrets_doc half_store) dev_us_east))
      ++ rest.
Proof.
  split; [vm_compute; reflexivity|].
  apply (C3_failing_fetch_aborts no_table insertion_order
           (file_world two_secrets_doc half_store) dev_us_east full_store).
  - intros p. simpl. unfold half_store, full_store.
    destruct (String.eqb p "pa"); [reflexivity|discriminate].
  - intros p. unfold full_store. simpl. destruct (String.eqb p "pa"); reflexivity.
Defined.

(** C5 (V2 datacenter banners). When the file decodes as V2 and every fetch
    succeeds, the run exits with 0 and its stdout ends with the banner
    [# Datacenter (<env>) Specific Vars:] (the environment name), the
    exports of the datacenter [dc]'s vars, the banner
    [# Datacenter (<env>) Specific Secrets:] and the exports of its
    secrets, whether or not [dc] is empty; a [dc] that is not a key gives
    the empty datacenter. *)
Theorem C5_v2_dc_banners (uprint : Z -> bool) (order : range_order) w a doc :
  a_env a <> EmptyString -> files w (a_varsFile a) = Some doc ->
  legacy_of doc = Some false -> (forall p, vault_ok (store w p) = true) ->
  let cfg := fst (yaml_Unmarshal_Config doc) in
  exit_code (action uprint order w a) = 0 /\
  (exists pre,
     stdout (fst (action uprint order w a))
     = pre ++ EStdout (cat ["# Datacenter ("; a_env a; ") Specific Vars:"])
            :: var_events uprint (order 5 (dc_Vars (dc_of cfg (a_env a) (a_dc a))))
            ++ EStdout (cat ["# Datacenter ("; a_env a; ") Specific Secrets:"])
            :: secret_stdout uprint (store w) (order 6 (dc_Secrets (dc_of cfg (a_env a) (a_dc a))))) /\
  (~ In (a_dc a) (map fst (env_Dcs (env_of cfg (a_env a)))) -> dc_of cfg (a_env a) (a_dc a) = zero_dc).
Proof.
  intros He Hf Hl Hs cfg.
  destruct (action_all_ok uprint order w a doc false He Hf Hl Hs) as [E S].
  split; [unfold exit_code; rewrite E; reflexivity|split].
  - rewrite S. unfold config_sections, dc_sections. rewrite !app_assoc, flat_last2.
    eexists. reflexivity.
  - apply map_get_absent.
Qed.

Lemma C5_v2_dc_banners_witness :
  exit_code (action no_table insertion_order (file_world (DocNode dc_vars_doc) full_store)
               dev_us_east) = 0.
Proof.
  apply (C5_v2_dc_banners no_table insertion_order (file_world (DocNode dc_vars_doc) full_store)
           dev_us_east (DocNode dc_vars_doc)).
  - discriminate.
  - reflexivity.
  - vm_compute. reflexivity.
  - intros p. unfold full_store. simpl. destruct (String.eqb p "pa"); reflexivity.
Defined.

(** C8 (absent keys). When the file decodes and every fetch succeeds, the
    run exits with 0 and prints [config_sections]; an environment name that
    is not a key of [environments] leaves the environment and datacenter
    sections without exports, and a datacenter name that is not a key of
    the environment's [dcs] leaves the datacenter sections without
    exports. *)
Theorem C8_absent_keys_empty (uprint : Z -> bool) (order : range_order) w a doc legacy :
  (forall b, order b [] = []) ->
  a_env a <> EmptyString -> files w (a_varsFile a) = Some doc ->
  legacy_of doc = Some legacy -> (forall p, vault_ok (store w p) = true) ->
  let cfg := fst (yaml_Unmarshal_Config doc) in
  let env := a_env a in
  let dc := a_dc a in
  exit_code (action uprint order w a) = 0 /\
  stdout (fst (action uprint order w a))
    = flat (config_sections uprint order (store w) legacy cfg env dc) /\
  (~ In env (map fst (cfg_Environments cfg)) ->
     var_events uprint (order 3 (env_Vars (env_of cfg env))) = [] /\
     secret_stdout uprint (store w) (order 4 (env_Secrets (env_of cfg env))) = [] /\
     var_events uprint (order 5 (dc_Vars (dc_of cfg env dc))) = [] /\
     secret_stdout uprint (store w) (order 6 (dc_Secrets (dc_of cfg env dc))) = []) /\
  (~ In dc (map fst (env_Dcs (env_of cfg env))) ->
     var_events uprint (order 5 (dc_Vars (dc_of cfg env dc))) = [] /\
     secret_stdout uprint (store w) (order 6 (dc_Secrets (dc_of cfg env dc))) = []).
Proof.
  intros Ho He Hf Hl Hs cfg env dc.
  destruct (action_all_ok uprint order w a doc legacy He Hf Hl Hs) as [E S].
  split; [unfold exit_code; rewrite E; reflexivity|split; [exact S|split]].
  - intros Hn. unfold dc_of. unfold env_of.
    rewrite (map_get_absent zero_env env _ Hn). simpl. rewrite !Ho. auto.
  - intros Hn. unfold dc_of. rewrite (map_get_absent zero_dc dc _ Hn). simpl. rewrite !Ho. auto.
Qed.

Lemma C8_absent_keys_empty_witness :
  exit_code (action no_table insertion_order (file_world (DocNode dc_vars_doc) full_store)
               (mkArgs "prod" "eu" vars_file false)) = 0.
Proof.
  apply (C8_absent_keys_empty no_table insertion_order
           (file_world (DocNode dc_vars_doc) full_store) (mkArgs "prod" "eu" vars_file false)
           (DocNode dc_vars_doc) false).
  - reflexivity.
  - discriminate.
  - reflexivity.
  - vm_compute. reflexivity.
  - intros p. unfold full_store. simpl. destruct (String.eqb p "pa"); reflexivity.
Defined.




(** C6, counterexample: the value a, double quote, b is not printed between bare
    double quotes: [%q] escapes the embedded double quote. *)
Lemma C6_embedded_quote_escaped :
  var_line no_table "K" (cat ["a"; dq; "b"]) <> cat ["export "; "K"; "="; dq; cat ["a"; dq; "b"]; dq].
Proof. vm_compute. intros H. discriminate H. Qed.

(** C6 (quoting), as the code has it: a value of printable ASCII
    characters is printed between double quotes with a backslash before
    each embedded double quote and backslash, and nothing else escaped
    ([$] included), in var lines and in the lines of secrets whose [value]
    is a string. *)
Theorem C6_printable_ascii_quoting (uprint : Z -> bool) k v :
  printable_ascii v = true ->
  var_line uprint k v = cat ["export "; k; "="; dq; escape_dq_bs v; dq] /\
  (forall data path, data_value data = Some (JString v) ->
     secret_line uprint k data path = cat ["export "; k; "="; dq; escape_dq_bs v; dq; " # "; path]).
Proof.
  intros Hp. split.
  - unfold var_line, go_quote. rewrite (quote_chars_ascii uprint v Hp). reflexivity.
  - intros data path Hd. unfold secret_line. rewrite Hd. simpl fmt_q_value. unfold go_quote.
    rewrite (quote_chars_ascii uprint v Hp). unfold cat. simpl.
    rewrite append_assoc'. reflexivity.
Qed.

Lemma C6_printable_ascii_quoting_witness :
  var_line no_table "K" (cat ["a"; dq; "$b"]) = cat ["export "; "K"; "="; dq; "a"; bs; dq; "$b"; dq].
Proof.
  destruct (C6_printable_ascii_quoting no_table "K" (cat ["a"; dq; "$b"])) as [H _];
    [vm_compute; reflexivity|].
  rewrite H. vm_compute. reflexivity.
Defined.

(** C2 (V1 translation). The V2 document [dc_vars_doc] (datacenter
    [us_east] with vars [REGION], no datacenter secrets) and its V1
    translation (the datacenter flattened to [REGION: us-east-1]) both
    decode as V2: yaml.v2 ignores the flattened key, so the legacy branch
    is never taken. The translation's run prints the datacenter-secrets
    banner and loses the [REGION] export, instead of printing the V2 run's
    output without that banner. *)
Theorem C2_translation_not_legacy (uprint : Z -> bool) :
  legacy_of (DocNode dc_vars_doc) = Some false /\
  no_dc_secrets (fst (yaml_Unmarshal_Config (DocNode dc_vars_doc))) = true /\
  legacy_of (DocNode (v1_translation dc_vars_doc)) = Some false /\
  action uprint insertion_order (file_world (DocNode dc_vars_doc) no_store) dev_us_east
    = ([EReadFile "vars.yml"; EStdout "# Setting Variables for:";
        EStdout "# Environment: dev"; EStdout "# Datacenter: us_east";
        EStdout "# Global Vars:"; EStdout "# Global Secrets:";
        EStdout "# Environment (dev) Vars:"; EStdout "# Environment (dev) Secrets:";
        EStdout "# Datacenter (dev) Specific Vars:";
        EStdout (cat ["export REGION="; dq; "us-east-1"; dq]);
        EStdout "# Datacenter (dev) Specific Secrets:"], Ok tt) /\
  action uprint insertion_order (file_world (DocNode (v1_translation dc_vars_doc)) no_store)
         dev_us_east
    = ([EReadFile "vars.yml"; EStdout "# Setting Variables for:";
        EStdout "# Environment: dev"; EStdout "# Datacenter: us_east";
        EStdout "# Global Vars:"; EStdout "# Global Secrets:";
        EStdout "# Environment (dev) Vars:"; EStdout "# Environment (dev) Secrets:";
        EStdout "# Datacenter (dev) Specific Vars:";
        EStdout "# Datacenter (dev) Specific Secrets:"], Ok tt).
Proof. split; [|split; [|split; [|split]]]; reflexivity. Qed.

(** * Further properties of a run *)

(** ** The quoting of [%q] never leaves a bare quote or a control character *)

Lemma well_quoted_app_len n a b :
  String.length a <= n -> well_quoted a = true -> well_quoted (String.append a b) = well_quoted b.
Proof.
  revert a. induction n as [|n IH]; intros a Hl Ha.
  - destruct a; [reflexivity|simpl in Hl; lia].
  - destruct a as [|c t]; [reflexivity|]. simpl in Hl, Ha |- *.
    apply andb_prop in Ha as [Hv Ha]. rewrite Hv. simpl.
    destruct (nat_of_ascii c =? 92)%nat.
    + destruct t as [|c' t']; [discriminate|]. simpl in Hl |- *.
      apply andb_prop in Ha as [Hv' Ha]. rewrite Hv'. simpl. apply IH; [lia|exact Ha].
    + apply andb_prop in Ha as [Hq Ha]. rewrite Hq. simpl. apply IH; [lia|exact Ha].
Qed.

Lemma well_quoted_app a b :
  well_quoted a = true -> well_quoted (String.append a b) = well_quoted b.
Proof. apply (well_quoted_app_len (String.length a)). lia. Qed.

Lemma plain_app a b : plain a = true -> well_quoted (String.append a b) = well_quoted b.
Proof.
  unfold plain. induction a as [|c t IH]; intros H; [reflexivity|].
  simpl in H |- *. apply andb_prop in H as [Hc Ht].
  apply andb_prop in Hc as [Hc Hq]. apply andb_prop in Hc as [Hv Hb].
  rewrite Hv. apply negb_true_iff in Hb. rewrite Hb. rewrite Hq. simpl. apply IH. exact Ht.
Qed.

Lemma plain_well_quoted a : plain a = true -> well_quoted a = true.
Proof. intros H. rewrite <- (append_empty_r a). rewrite (plain_app a EmptyString H). reflexivity. Qed.

Lemma plain_append a b : plain a = true -> plain b = true -> plain (String.append a b) = true.
Proof.
  unfold plain. induction a as [|c t IH]; intros Ha Hb; [exact Hb|].
  simpl in Ha |- *. apply andb_prop in Ha as [Hc Ht]. rewrite Hc. simpl. apply IH; assumption.
Qed.

Lemma get_in k s c : String.get k s = Some c -> In c (list_ascii_of_string s).
Proof.
  revert k. induction s as [|c0 t IH]; intros k H; [discriminate|].
  destruct k as [|k]; simpl in H |- *.
  - injection H as <-. left. reflexivity.
  - right. exact (IH k H).
Qed.

Lemma plain_hexdigit n : plain (hexdigit n) = true.
Proof.
  unfold hexdigit. destruct (String.get (Z.to_nat n) "0123456789abcdef") as [c|] eqn:E;
    [|reflexivity].
  apply get_in in E.
  assert (H : plain "0123456789abcdef" = true) by reflexivity.
  unfold plain in H |- *. rewrite forallb_forall in H. simpl. rewrite (H c E). reflexivity.
Qed.

Lemma plain_hexw w r : plain (hexw w r) = true.
Proof.
  revert r. induction w as [|w IH]; intros r; [reflexivity|].
  simpl. apply plain_append; [apply IH|apply plain_hexdigit].
Qed.

Lemma high_well_quoted s : all_high s = true -> well_quoted s = true.
Proof.
  unfold all_high. induction s as [|c t IH]; intros H; [reflexivity|].
  cbn [list_ascii_of_string forallb] in H. cbn [well_quoted].
  apply andb_prop in H as [Hc Ht]. apply Nat.leb_le in Hc.
  unfold visible.
  replace ((32 <=? nat_of_ascii c)%nat) with true by (symmetry; apply Nat.leb_le; lia).
  replace ((nat_of_ascii c =? 127)%nat) with false by (symmetry; apply Nat.eqb_neq; lia).
  replace ((nat_of_ascii c =? 92)%nat) with false by (symmetry; apply Nat.eqb_neq; lia).
  replace ((nat_of_ascii c =? 34)%nat) with false by (symmetry; apply Nat.eqb_neq; lia).
  simpl. apply IH. exact Ht.
Qed.

Lemma escape_hex_well_quoted (x : string) w r :
  plain x = true -> String.length x = 1 ->
  well_quoted (cat [bs; x; hexw w r]) = true.
Proof.
  intros Hx Hl. destruct x as [|c [|c' t]]; try (simpl in Hl; lia).
  unfold cat. simpl. unfold plain in Hx. simpl in Hx. rewrite andb_true_r in Hx.
  apply andb_prop in Hx as [Hx _]. apply andb_prop in Hx as [Hx _]. rewrite Hx. simpl.
  apply plain_well_quoted, plain_hexw.
Qed.

Lemma esc_byte_well_quoted b rest :
  well_quoted rest = true -> well_quoted (esc_byte b rest) = true.
Proof.
  intros H. unfold esc_byte. rewrite well_quoted_app; [exact H|].
  apply escape_hex_well_quoted; reflexivity.
Qed.

(** A rune whose UTF-8 encoding [raw] is a multi-byte sequence. *)
Lemma appendEscapedRune_high uprint r raw :
  all_high raw = true -> raw <> EmptyString ->
  well_quoted (appendEscapedRune uprint r raw) = true.
Proof.
  intros Hh Hne. unfold appendEscapedRune.
  destruct ((r =? 34)%Z || (r =? 92)%Z).
  - destruct raw as [|c t]; [congruence|]. unfold all_high in Hh.
    cbn [list_ascii_of_string forallb] in Hh. unfold bs, chr. cbn [String.append well_quoted].
    apply andb_prop in Hh as [Hc Ht]. apply Nat.leb_le in Hc. unfold visible.
    replace ((32 <=? nat_of_ascii c)%nat) with true by (symmetry; apply Nat.leb_le; lia).
    replace ((nat_of_ascii c =? 127)%nat) with false by (symmetry; apply Nat.eqb_neq; lia).
    simpl. apply high_well_quoted. exact Ht.
  - destruct (IsPrint uprint r); [apply high_well_quoted; exact Hh|].
    repeat match goal with |- context [if ?b then _ else _] => destruct b end;
      try reflexivity; apply escape_hex_well_quoted; reflexivity.
Qed.

(** A one-byte rune. *)
Lemma appendEscapedRune_ascii uprint c :
  (zbyte c < 128)%Z ->
  well_quoted (appendEscapedRune uprint (zbyte c) (String c EmptyString)) = true.
Proof.
  intros H. destruct c as [[] [] [] [] [] [] [] []];
    try (vm_compute in H; discriminate H); vm_compute; reflexivity.
Qed.

Lemma high_byte c : (zbyte c <? 128)%Z = false -> (128 <=? nat_of_ascii c)%nat = true.
Proof. unfold zbyte. intros H. apply Z.ltb_ge in H. apply Nat.leb_le. lia. Qed.

Lemma cont_high c : cont (zbyte c) = true -> (128 <=? nat_of_ascii c)%nat = true.
Proof.
  unfold cont, zbyte. intros H. apply andb_prop in H as [H _]. apply Z.leb_le in H.
  apply Nat.leb_le. lia.
Qed.

Lemma second_ok_high b0 c : second_ok b0 (zbyte c) = true -> (128 <=? nat_of_ascii c)%nat = true.
Proof.
  unfold second_ok. intros H.
  repeat match type of H with context [if ?b then _ else _] => destruct b end;
    try (apply cont_high; exact H);
    unfold zbyte in H; apply andb_prop in H as [H _]; apply Z.leb_le in H;
    apply Nat.leb_le; lia.
Qed.

Ltac split_bools :=
  repeat match goal with
         | H : (_ && _) = true |- _ => apply andb_prop in H as [? ?]
         end.

Lemma quote_chars_well_quoted_len uprint n s :
  String.length s <= n -> well_quoted (quote_chars uprint s) = true.
Proof.
  revert s. induction n as [|n IH]; intros s Hl.
  - destruct s; [reflexivity|simpl in Hl; lia].
  - destruct s as [|c0 s1]; [reflexivity|]. simpl in Hl. cbn [quote_chars].
    destruct (zbyte c0 <? 128)%Z eqn:E0.
    + rewrite well_quoted_app; [apply IH; lia|].
      apply appendEscapedRune_ascii. apply Z.ltb_lt. exact E0.
    + pose proof (high_byte c0 E0) as H0.
      destruct s1 as [|c1 s2]; [apply esc_byte_well_quoted; apply IH; simpl; lia|].
      simpl in Hl.
      destruct ((194 <=? zbyte c0)%Z && (zbyte c0 <=? 223)%Z && cont (zbyte c1)) eqn:E1.
      { split_bools. rewrite well_quoted_app; [apply IH; lia|].
        apply appendEscapedRune_high; [|discriminate].
        unfold all_high. cbn [list_ascii_of_string forallb]. rewrite H0, (cont_high c1); auto; reflexivity. }
      destruct s2 as [|c2 s3]; [apply esc_byte_well_quoted; apply IH; simpl; lia|].
      simpl in Hl.
      destruct ((224 <=? zbyte c0)%Z && (zbyte c0 <=? 239)%Z && second_ok (zbyte c0) (zbyte c1)
                && cont (zbyte c2)) eqn:E2.
      { split_bools. rewrite well_quoted_app; [apply IH; lia|].
        apply appendEscapedRune_high; [|discriminate].
        unfold all_high. cbn [list_ascii_of_string forallb]. rewrite H0, (second_ok_high (zbyte c0) c1), (cont_high c2); auto; reflexivity. }
      destruct s3 as [|c3 s4]; [apply esc_byte_well_quoted; apply IH; simpl; lia|].
      simpl in Hl.
      destruct ((240 <=? zbyte c0)%Z && (zbyte c0 <=? 244)%Z && second_ok (zbyte c0) (zbyte c1)
                && cont (zbyte c2) && cont (zbyte c3)) eqn:E3.
      { split_bools. rewrite well_quoted_app; [apply IH; lia|].
        apply appendEscapedRune_high; [|discriminate].
        unfold all_high. cbn [list_ascii_of_string forallb].
        rewrite H0, (second_ok_high (zbyte c0) c1), (cont_high c2), (cont_high c3); auto; reflexivity. }
      apply esc_byte_well_quoted; apply IH; simpl; lia.
Qed.

Lemma quote_chars_well_quoted uprint s : well_quoted (quote_chars uprint s) = true.
Proof. apply (quote_chars_well_quoted_len uprint (String.length s)). lia. Qed.

(** ** Invariants of a run *)

Lemma prefix_app p s : String.prefix p (String.append p s) = true.
Proof.
  induction p as [|c p IH]; [destruct s; reflexivity|].
  simpl. destruct (ascii_dec c c) as [_|n]; [exact IH|contradiction n; reflexivity].
Qed.

Lemma line_shape_export s : line_shape (EStdout (String.append "export " s)) = true.
Proof. unfold line_shape. rewrite prefix_app, orb_true_r. reflexivity. Qed.

Section RunInvariants.

Variable store : string -> vault_reply.

(** Stdout lines are comments or exports. *)
Lemma shaped_bind {A B} (m : M A) (f : A -> M B) :
  shaped m -> (forall a, shaped (f a)) -> shaped (bind m f).
Proof.
  unfold shaped. intros Hm Hf. destruct m as [es [a|msg c]]; [|exact Hm].
  rewrite bind_ok. simpl in *. rewrite forallb_app, Hm, Hf. reflexivity.
Qed.

Lemma shaped_range_vars uprint l : shaped (range_vars uprint l).
Proof.
  unfold shaped. rewrite range_vars_eq. simpl fst.
  induction l as [|[k v] t IH]; [reflexivity|].
  change (line_shape (EStdout (var_line uprint k v)) && forallb line_shape (var_events uprint t)
          = true).
  rewrite IH, andb_true_r. exact (line_shape_export _).
Qed.

Lemma shaped_range_secrets uprint l : shaped (range_secrets uprint store l).
Proof.
  induction l as [|[k p] t IH]; cbn [range_secrets]; [reflexivity|].
  apply shaped_bind; [|intros _; exact IH].
  unfold emit_secret, GetVaultSecret.
  destruct (store p); try reflexivity.
  unfold shaped. simpl fst. cbn [forallb line_shape andb]. rewrite andb_true_r. exact (line_shape_export _).
Qed.

Lemma shaped_print_config uprint order legacy config env dc :
  shaped (print_config uprint order store legacy config env dc).
Proof.
  unfold print_config. destruct legacy;
  repeat first [ apply shaped_range_vars | apply shaped_range_secrets
               | apply shaped_bind; [|intros _]
               | unfold when; match goal with |- shaped (if ?b then _ else _) => destruct b end
               | reflexivity ].
Qed.

(** Exits have one of [codes], with the message as last event. *)
Lemma exits_bind {A B} codes (m : M A) (f : A -> M B) :
  exits_clean codes m -> (forall a, exits_clean codes (f a)) -> exits_clean codes (bind m f).
Proof.
  unfold exits_clean. intros Hm Hf. destruct m as [es [a|msg c]]; [|exact Hm].
  rewrite bind_ok. specialize (Hf a). simpl.
  destruct (snd (f a)) as [b|msg c]; [exact I|].
  destruct Hf as [Hc [pre Hp]]. split; [exact Hc|]. exists (es ++ pre).
  rewrite Hp, app_assoc. reflexivity.
Qed.

Lemma exits_range_secrets uprint l : exits_clean [VaultErrorCode] (range_secrets uprint store l).
Proof.
  induction l as [|[k p] t IH]; cbn [range_secrets]; [exact I|].
  apply exits_bind; [|intros _; exact IH].
  destruct (vault_ok (store p)) eqn:E.
  - rewrite (emit_secret_ok uprint store k p E). exact I.
  - destruct (emit_secret_fail uprint store k p E) as [err ->].
    split; [left; reflexivity|]. exists [EGetSecret p]. reflexivity.
Qed.

Lemma exits_sub {A} codes codes' (m : M A) :
  incl codes codes' -> exits_clean codes m -> exits_clean codes' m.
Proof.
  unfold exits_clean. intros Hi H. destruct (snd m); [exact I|].
  destruct H as [Hc Hp]. split; [apply Hi; exact Hc|exact Hp].
Qed.

Lemma exits_print_config uprint order legacy config env dc :
  exits_clean [VaultErrorCode] (print_config uprint order store legacy config env dc).
Proof.
  unfold print_config. destruct legacy;
  repeat first [ apply exits_range_secrets
               | apply exits_bind; [|intros _]
               | unfold when; match goal with |- exits_clean _ (if ?b then _ else _) => destruct b end
               | rewrite range_vars_eq
               | exact I ].
Qed.

(** The paths fetched. *)
Lemma fetches_app l1 l2 : fetches (l1 ++ l2) = fetches l1 ++ fetches l2.
Proof.
  induction l1 as [|e t IH]; [reflexivity|]. destruct e; simpl; rewrite ?IH; reflexivity.
Qed.

Lemma fetch_spec_bind {A B} L1 L2 (m : M A) (f : A -> M B) :
  fetch_spec L1 m -> (forall a, fetch_spec L2 (f a)) -> fetch_spec (L1 ++ L2) (bind m f).
Proof.
  unfold fetch_spec. intros [[r Hr] Hok] Hf. destruct m as [es [a|msg c]].
  - rewrite bind_ok. simpl in *. pose proof (Hok a eq_refl) as Ha.
    destruct (Hf a) as [[r' Hr'] Hok']. rewrite fetches_app, Ha. split.
    + exists r'. rewrite Hr', app_assoc. reflexivity.
    + intros b Hb. rewrite (Hok' b Hb). reflexivity.
  - simpl in *. split; [exists (r ++ L2); rewrite Hr, app_assoc; reflexivity|discriminate].
Qed.

Lemma fetch_spec_bind_nil {A B} L (m : M A) (f : A -> M B) :
  fetch_spec [] m -> (forall a, fetch_spec L (f a)) -> fetch_spec L (bind m f).
Proof. intros Hm Hf. exact (fetch_spec_bind [] L m f Hm Hf). Qed.

Lemma fetch_spec_bind_last {A B} L (m : M A) (f : A -> M B) :
  fetch_spec L m -> (forall a, fetch_spec [] (f a)) -> fetch_spec L (bind m f).
Proof. intros Hm Hf. rewrite <- (app_nil_r L). exact (fetch_spec_bind L [] m f Hm Hf). Qed.

Lemma fetch_spec_no_fetch {A} (m : M A) : fetches (fst m) = [] -> fetch_spec [] m.
Proof. intros H. split; [exists []; rewrite H; reflexivity|intros a _; exact H]. Qed.

Lemma fetch_spec_range_vars uprint l : fetch_spec [] (range_vars uprint l).
Proof.
  apply fetch_spec_no_fetch. rewrite range_vars_eq. simpl fst.
  induction l as [|[k v] t IH]; [reflexivity|]. exact IH.
Qed.

Lemma fetch_spec_range_secrets uprint l : fetch_spec (map snd l) (range_secrets uprint store l).
Proof.
  induction l as [|[k p] t IH]; cbn [range_secrets map].
  - apply fetch_spec_no_fetch. reflexivity.
  - apply (fetch_spec_bind [p] (map snd t)); [|intros _; exact IH].
    unfold emit_secret, GetVaultSecret.
    destruct (store p); (split; [exists []; reflexivity|]);
      try discriminate; reflexivity.
Qed.

Lemma fetch_spec_print_config (uprint : Z -> bool) (order : range_order) (legacy : bool) config env dc :
  fetch_spec (map snd (order 2 (cfg_Secrets config))
              ++ map snd (order 4 (env_Secrets (env_of config env)))
              ++ (if legacy then @nil string
                  else map snd (order 6 (dc_Secrets (dc_of config env dc)))))
             (print_config uprint order store legacy config env dc).
Proof.
  unfold print_config, dc_of, env_of. destruct legacy; [rewrite app_nil_r|];
  repeat first [ apply fetch_spec_range_secrets
               | match goal with
                 | |- fetch_spec (_ ++ _) (bind (range_secrets _ _ _) _) =>
                     apply fetch_spec_bind; [apply fetch_spec_range_secrets|intros _]
                 | |- fetch_spec _ (bind (range_secrets _ _ _) _) =>
                     apply fetch_spec_bind_last; [apply fetch_spec_range_secrets|intros _]
                 | |- fetch_spec _ (bind _ _) =>
                     apply fetch_spec_bind_nil; [|intros _]
                 | |- fetch_spec _ (if ?b then _ else _) => destruct b
                 end
               | apply fetch_spec_range_vars
               | apply fetch_spec_no_fetch; reflexivity
               | unfold when ].
Qed.

Lemma vault_exit_bind {A B} (m : M A) (f : A -> M B) :
  vault_exit store m -> (forall a, vault_exit store (f a)) -> vault_exit store (bind m f).
Proof.
  unfold vault_exit. intros Hm Hf msg H. destruct m as [es [a|msg' c]].
  - rewrite bind_ok in *. simpl in H. destruct (Hf a msg H) as [pre [p [Hp He]]].
    exists (es ++ pre), p. simpl. rewrite Hp, app_assoc. auto.
  - rewrite bind_exit in *. cbn [snd] in H. injection H as E1 E2. subst msg' c.
    exact (Hm msg eq_refl).
Qed.

Lemma vault_exit_ok {A} (m : M A) : (forall msg c, snd m <> Exit msg c) -> vault_exit store m.
Proof. intros H msg E. exfalso. exact (H _ _ E). Qed.

Lemma vault_exit_range_secrets uprint l : vault_exit store (range_secrets uprint store l).
Proof.
  induction l as [|[k p] t IH]; cbn [range_secrets];
    [apply vault_exit_ok; discriminate|].
  apply vault_exit_bind; [|intros _; exact IH].
  intros msg H. unfold emit_secret, GetVaultSecret in *.
  exists [], p. destruct (store p); simpl in H |- *; try discriminate;
    injection H as <-; auto.
Qed.

Lemma vault_exit_print_config uprint order legacy config env dc :
  vault_exit store (print_config uprint order store legacy config env dc).
Proof.
  unfold print_config. destruct legacy;
  repeat first [ apply vault_exit_range_secrets
               | apply vault_exit_bind; [|intros _]
               | unfold when; match goal with |- vault_exit store (if ?b then _ else _) => destruct b end
               | rewrite range_vars_eq
               | apply vault_exit_ok; discriminate ].
Qed.

End RunInvariants.

(** ** Whole runs, continued *)

Ltac vx := let E := fresh in intros ? E;
  cbv [snd exit_error emit ret enableMlock bind VaultErrorCode EnvErrorCode YamlErrorCode] in E;
  try destruct (_ : bool); discriminate.

(** An unreadable variables file: exit 4 with a message naming the file as
    given on the command line; nothing on stdout, no secret fetched. *)
Theorem unreadable_file_exits_4 (uprint : Z -> bool) (order : range_order) w a :
  a_env a <> EmptyString -> files w (a_varsFile a) = None ->
  action uprint order w a
  = (mlock_events (a_mlock a) ++
       [EReadFile (a_varsFile a); EStderr (cat ["unable to read variable file "; a_varsFile a])],
     Exit (cat ["unable to read variable file "; a_varsFile a]) 4).
Proof.
  intros He Hf. unfold action. apply String.eqb_neq in He. rewrite He, Hf.
  destruct (a_mlock a); reflexivity.
Qed.

Lemma unreadable_file_exits_4_witness :
  exit_code (action no_table insertion_order (file_world DocEmpty no_store)
               (mkArgs "dev" "" "other.yml" false)) = 4.
Proof.
  rewrite (unreadable_file_exits_4 no_table insertion_order (file_world DocEmpty no_store)
             (mkArgs "dev" "" "other.yml" false)); [reflexivity|discriminate|reflexivity].
Defined.

(** A file that decodes neither as V2 nor as V1: the decoder's error is the
    only stdout line, then exit 5 with [unable to unmarshal yaml]; no
    secret fetched. *)
Theorem undecodable_file_exits_5 (uprint : Z -> bool) (order : range_order) w a doc :
  a_env a <> EmptyString -> files w (a_varsFile a) = Some doc -> legacy_of doc = None ->
  action uprint order w a
  = (mlock_events (a_mlock a) ++
       [EReadFile (a_varsFile a); EStdoutYamlError; EStderr "unable to unmarshal yaml"],
     Exit "unable to unmarshal yaml" YamlErrorCode).
Proof.
  intros He Hf Hl. unfold action, legacy_of in *. apply String.eqb_neq in He. rewrite He, Hf.
  destruct (yaml_Unmarshal_Config doc) as [config ok].
  destruct (yaml_Unmarshal_ConfigV1 doc) as [config1 ok1].
  simpl in Hl. destruct ok; [discriminate|]. destruct ok1; [discriminate|].
  destruct (a_mlock a); reflexivity.
Qed.

Lemma undecodable_file_exits_5_witness :
  exit_code (action no_table insertion_order
               (file_world (DocNode (YMap [("vars", YScalar "a")])) no_store) dev_us_east) = 5.
Proof.
  rewrite (undecodable_file_exits_5 no_table insertion_order
             (file_world (DocNode (YMap [("vars", YScalar "a")])) no_store) dev_us_east
             (DocNode (YMap [("vars", YScalar "a")])));
    [reflexivity|discriminate|reflexivity|vm_compute; reflexivity].
Defined.

(** An empty variables file decodes as an empty V2 configuration: the run
    prints only the banners, with the datacenter banners of the V2 form,
    fetches nothing and exits 0. *)
Theorem empty_file_prints_banners (uprint : Z -> bool) (order : range_order) w a :
  (forall b, order b [] = []) ->
  a_env a <> EmptyString -> files w (a_varsFile a) = Some DocEmpty ->
  action uprint order w a
  = (mlock_events (a_mlock a) ++ EReadFile (a_varsFile a) ::
       map EStdout
         (["# Setting Variables for:"; cat ["# Environment: "; a_env a]] ++
          (if String.eqb (a_dc a) EmptyString then [] else [cat ["# Datacenter: "; a_dc a]]) ++
          ["# Global Vars:"; "# Global Secrets:";
           cat ["# Environment ("; a_env a; ") Vars:"];
           cat ["# Environment ("; a_env a; ") Secrets:"];
           cat ["# Datacenter ("; a_env a; ") Specific Vars:"];
           cat ["# Datacenter ("; a_env a; ") Specific Secrets:"]]),
     Ok tt).
Proof.
  intros Ho He Hf.
  rewrite (action_decoded uprint order w a DocEmpty false He Hf eq_refl).
  unfold print_config. simpl yaml_Unmarshal_Config. cbn [fst cfg_Vars cfg_Secrets cfg_Environments map_get].
  cbn [env_Vars env_Secrets env_Dcs zero_env map_get dc_Vars dc_Secrets zero_dc].
  rewrite !Ho. destruct (String.eqb (a_dc a) EmptyString); reflexivity.
Qed.

Lemma empty_file_prints_banners_witness :
  exit_code (action no_table insertion_order (file_world DocEmpty no_store) dev_us_east) = 0.
Proof.
  rewrite (empty_file_prints_banners no_table insertion_order (file_world DocEmpty no_store)
             dev_us_east); [reflexivity|reflexivity|discriminate|reflexivity].
Defined.

(** Every exit of a run has code 2, 4, 5 or 6, and its message is the last
    thing the run writes. *)
Theorem action_exit_codes (uprint : Z -> bool) (order : range_order) w a msg c :
  snd (action uprint order w a) = Exit msg c ->
  In c [EnvErrorCode; 4; YamlErrorCode; VaultErrorCode] /\
  exists pre, fst (action uprint order w a) = pre ++ [EStderr msg].
Proof.
  intros H.
  assert (Hx : exits_clean [EnvErrorCode; 4; YamlErrorCode; VaultErrorCode] (action uprint order w a)).
  { unfold action.
    apply exits_bind; [destruct (a_mlock a); exact I|intros _].
    destruct (String.eqb (a_env a) EmptyString).
    { split; [left; reflexivity|exists []; reflexivity]. }
    apply exits_bind; [exact I|intros _].
    destruct (files w (a_varsFile a)) as [doc|].
    2: { split; [right; left; reflexivity|exists []; reflexivity]. }
    destruct (yaml_Unmarshal_Config doc) as [config ok].
    destruct ok.
    { eapply exits_sub; [|apply exits_print_config]. intros x [<-|[]]. simpl; auto. }
    destruct (yaml_Unmarshal_ConfigV1 doc) as [config1 ok1].
    destruct ok1.
    { eapply exits_sub; [|apply exits_print_config]. intros x [<-|[]]. simpl; auto. }
    apply exits_bind; [exact I|intros _].
    split; [simpl; auto|exists []; reflexivity]. }
  unfold exits_clean in Hx. rewrite H in Hx. exact Hx.
Qed.

Lemma action_exit_codes_witness :
  snd (action no_table insertion_order (file_world two_secrets_doc half_store) dev_us_east)
  = Exit "Vault - No secret at path: pb" 6 /\
  exists pre, fst (action no_table insertion_order (file_world two_secrets_doc half_store) dev_us_east)
              = pre ++ [EStderr "Vault - No secret at path: pb"].
Proof.
  split; [vm_compute; reflexivity|].
  apply (proj2 (action_exit_codes no_table insertion_order (file_world two_secrets_doc half_store)
                  dev_us_east "Vault - No secret at path: pb" 6 eq_refl)).
Defined.

(** A run that exits with [VaultErrorCode] ends with the fetch of a path
    and the error [GetVaultSecret] gives for it: [Vault - Client Error: ...],
    [Vault - Read Error: ...] or [Vault - No secret at path: <path>]. *)
Theorem vault_exit_message (uprint : Z -> bool) (order : range_order) w a msg :
  snd (action uprint order w a) = Exit msg VaultErrorCode ->
  exists pre p, fst (action uprint order w a) = pre ++ [EGetSecret p; EStderr msg] /\
                vault_error p (store w p) = Some msg.
Proof.
  revert msg. fold (vault_exit (store w) (action uprint order w a)).
  unfold action.
  apply vault_exit_bind; [destruct (a_mlock a); vx|intros _].
  destruct (String.eqb (a_env a) EmptyString); [vx|].
  apply vault_exit_bind; [vx|intros _].
  destruct (files w (a_varsFile a)) as [doc|]; [|vx].
  destruct (yaml_Unmarshal_Config doc) as [config ok].
  destruct ok; [apply vault_exit_print_config|].
  destruct (yaml_Unmarshal_ConfigV1 doc) as [config1 ok1].
  destruct ok1; [apply vault_exit_print_config|].
  vx.
Qed.

Lemma vault_exit_message_witness :
  exists pre p,
    fst (action no_table insertion_order (file_world two_secrets_doc half_store) dev_us_east)
    = pre ++ [EGetSecret p; EStderr "Vault - No secret at path: pb"] /\
    vault_error p (half_store p) = Some "Vault - No secret at path: pb".
Proof.
  apply (vault_exit_message no_table insertion_order (file_world two_secrets_doc half_store)
           dev_us_east "Vault - No secret at path: pb").
  vm_compute. reflexivity.
Defined.

(** Every stdout print of a run begins with [# ] or [export ], apart from
    the decoder's error printed before exit 5. *)
Theorem action_print_prefixes (uprint : Z -> bool) (order : range_order) w a :
  forallb line_shape (fst (action uprint order w a)) = true.
Proof.
  fold (shaped (action uprint order w a)). unfold action.
  apply shaped_bind; [destruct (a_mlock a); reflexivity|intros _].
  destruct (String.eqb (a_env a) EmptyString); [reflexivity|].
  apply shaped_bind; [reflexivity|intros _].
  destruct (files w (a_varsFile a)) as [doc|]; [|reflexivity].
  destruct (yaml_Unmarshal_Config doc) as [config ok].
  destruct ok; [apply shaped_print_config|].
  destruct (yaml_Unmarshal_ConfigV1 doc) as [config1 ok1].
  destruct ok1; [apply shaped_print_config|reflexivity].
Qed.

(** Once the file is decoded, the paths fetched from the store are, in
    order, a prefix of the global secrets' paths, then the environment's,
    then (V2 only) the datacenter's; all of them when the run returns, in
    particular when every fetch succeeds. Vars are never fetched. *)
Theorem action_fetched_paths (uprint : Z -> bool) (order : range_order) w a doc legacy :
  a_env a <> EmptyString -> files w (a_varsFile a) = Some doc -> legacy_of doc = Some legacy ->
  let cfg := fst (yaml_Unmarshal_Config doc) in
  let L := map snd (order 2 (cfg_Secrets cfg))
           ++ map snd (order 4 (env_Secrets (env_of cfg (a_env a))))
           ++ (if legacy then []
               else map snd (order 6 (dc_Secrets (dc_of cfg (a_env a) (a_dc a))))) in
  (exists r, L = fetches (fst (action uprint order w a)) ++ r) /\
  (snd (action uprint order w a) = Ok tt -> fetches (fst (action uprint order w a)) = L) /\
  ((forall p, vault_ok (store w p) = true) -> fetches (fst (action uprint order w a)) = L).
Proof.
  intros He Hf Hl cfg L.
  rewrite (action_decoded uprint order w a doc legacy He Hf Hl). cbn [fst snd].
  replace (fetches (mlock_events (a_mlock a) ++ EReadFile (a_varsFile a) :: _))
    with (fetches (fst (print_config uprint order (store w) legacy cfg (a_env a) (a_dc a))))
    by (destruct (a_mlock a); reflexivity).
  destruct (fetch_spec_print_config (store w) uprint order legacy cfg (a_env a) (a_dc a))
    as [Hp Hok].
  split; [exact Hp|split].
  - intros H. exact (Hok tt H).
  - intros Hs. destruct (print_config_ok uprint order (store w) legacy cfg (a_env a) (a_dc a) Hs)
      as [es [E _]]. apply (Hok tt). rewrite E. reflexivity.
Qed.

Lemma action_fetched_paths_witness :
  fetches (fst (action no_table insertion_order (file_world two_secrets_doc full_store) dev_us_east))
  = ["pa"; "pb"].
Proof.
  apply (action_fetched_paths no_table insertion_order (file_world two_secrets_doc full_store)
           dev_us_east two_secrets_doc false); [discriminate|reflexivity|reflexivity|].
  intros p. unfold full_store. simpl. destruct (String.eqb p "pa"); reflexivity.
Defined.

(** The value in an export line is a double-quoted Go literal: no control
    character, no DEL, and every backslash and double quote inside it part
    of an escape, so the line is one line and the quotes are not closed
    early; for vars and for secrets whose [value] is a string. *)
Theorem export_value_well_quoted (uprint : Z -> bool) k v :
  (exists body, var_line uprint k v = cat ["export "; k; "="; dq; body; dq] /\
                well_quoted body = true) /\
  (forall data path, data_value data = Some (JString v) ->
     exists body, secret_line uprint k data path = cat ["export "; k; "="; dq; body; dq; " # "; path]
                  /\ well_quoted body = true).
Proof.
  split.
  - exists (quote_chars uprint v). split; [reflexivity|apply quote_chars_well_quoted].
  - intros data path Hd. exists (quote_chars uprint v). split; [|apply quote_chars_well_quoted].
    unfold secret_line. rewrite Hd. simpl fmt_q_value. unfold go_quote, cat. simpl.
    rewrite append_assoc'. reflexivity.
Qed.

Lemma export_value_well_quoted_witness :
  exists body,
    secret_line no_table "K" [("value", JString (String (ascii_of_nat 10) "x"))] "p"
    = cat ["export "; "K"; "="; dq; body; dq; " # "; "p"] /\ well_quoted body = true.
Proof.
  apply (proj2 (export_value_well_quoted no_table "K" (String (ascii_of_nat 10) "x"))
           [("value", JString (String (ascii_of_nat 10) "x"))] "p").
  reflexivity.
Defined.

(** The V1 translation of a document that decodes as V2, with no
    datacenter secrets and no datacenter variable named [vars] or
    [secrets], still decodes as V2, since the flattened datacenter keys are
    ignored: the legacy branch is not reached. The run on it (same store)
    ends the same way and prints the same events, except that the exports
    of the selected datacenter's vars are lost. *)
Theorem v1_translation_drops_dc_vars (uprint : Z -> bool) (order : range_order) wD wT a D :
  (forall b, order b [] = []) ->
  files wD (a_varsFile a) = Some (DocNode D) ->
  files wT (a_varsFile a) = Some (DocNode (v1_translation D)) ->
  store wT = store wD ->
  snd (yaml_Unmarshal_Config (DocNode D)) = true ->
  no_dc_secrets (fst (yaml_Unmarshal_Config (DocNode D))) = true ->
  reserved_free D = true ->
  drops (var_events uprint (order 5 (dc_Vars (dc_of (fst (yaml_Unmarshal_Config (DocNode D)))
                                                   (a_env a) (a_dc a)))))
        (action uprint order wD a) (action uprint order wT a).
Proof.
  intros Ho HfD HfT Hst Hok Hnd Hrf.
  destruct (String.eqb (a_env a) EmptyString) eqn:He.
  - unfold action. rewrite He. apply drops_refl.
  - apply String.eqb_neq in He.
    destruct (yaml_Unmarshal_Config (DocNode D)) as [cfg ok] eqn:Ed.
    simpl in Hok, Hnd |- *. subst ok.
    assert (LD : legacy_of (DocNode D) = Some false)
      by (unfold legacy_of; rewrite Ed; reflexivity).
    pose proof (v1_translation_decodes_as_v2 D cfg Hrf Ed) as Et.
    assert (LT : legacy_of (DocNode (v1_translation D)) = Some false)
      by (unfold legacy_of; rewrite Et; reflexivity).
    rewrite (action_decoded uprint order wD a _ false He HfD LD).
    rewrite (action_decoded uprint order wT a _ false He HfT LT).
    rewrite Ed, Et, Hst. simpl fst.
    pose proof (drops_prefix _ (mlock_events (a_mlock a) ++ [EReadFile (a_varsFile a)])
                  _ _ (print_config_clear uprint order (store wD) cfg (a_env a) (a_dc a) Ho Hnd))
      as H.
    rewrite <- !app_assoc in H. exact H.
Qed.

Lemma v1_translation_drops_dc_vars_witness :
  snd (action no_table insertion_order (file_world (DocNode dc_vars_doc) no_store) dev_us_east)
  = snd (action no_table insertion_order
           (file_world (DocNode (v1_translation dc_vars_doc)) no_store) dev_us_east).
Proof.
  apply (v1_translation_drops_dc_vars no_table insertion_order
           (file_world (DocNode dc_vars_doc) no_store)
           (file_world (DocNode (v1_translation dc_vars_doc)) no_store)
           dev_us_east dc_vars_doc); reflexivity.
Defined.

(** ** Stdout lines *)

Lemma list_ascii_of_string_app a b :
  list_ascii_of_string (String.append a b) = list_ascii_of_string a ++ list_ascii_of_string b.
Proof. induction a as [|c t IH]; simpl; [reflexivity|rewrite IH; reflexivity]. Qed.

Lemma nl_free_app a b : nl_free (String.append a b) = nl_free a && nl_free b.
Proof. unfold nl_free. rewrite list_ascii_of_string_app, forallb_app. reflexivity. Qed.

Lemma nl_free_cat l : nl_free (cat l) = forallb nl_free l.
Proof.
  unfold cat. induction l as [|x t IH]; [reflexivity|].
  destruct t as [|y u].
  - cbn [forallb String.concat]. rewrite andb_true_r. reflexivity.
  - change (String.concat EmptyString (x :: y :: u)) with (String.append x (String.concat EmptyString (y :: u))).
    rewrite nl_free_app, IH. reflexivity.
Qed.

Lemma well_quoted_visible_len n s :
  String.length s <= n -> well_quoted s = true -> forallb visible (list_ascii_of_string s) = true.
Proof.
  revert s. induction n as [|n IH]; intros s Hl H.
  - destruct s; [reflexivity|simpl in Hl; lia].
  - destruct s as [|c t]; [reflexivity|]. simpl in Hl, H |- *.
    apply andb_true_iff in H as [Hc H]. rewrite Hc. simpl.
    destruct (nat_of_ascii c =? 92)%nat.
    + destruct t as [|c' t']; [discriminate|].
      apply andb_true_iff in H as [Hc' H]. simpl. rewrite Hc'. simpl.
      apply IH; [simpl in Hl; lia|exact H].
    + apply andb_true_iff in H as [_ H]. apply IH; [lia|exact H].
Qed.

Lemma well_quoted_nl_free s : well_quoted s = true -> nl_free s = true.
Proof.
  intros H. pose proof (well_quoted_visible_len _ s (le_n _) H) as V.
  unfold nl_free. rewrite forallb_forall in *. intros c Hc. specialize (V c Hc).
  unfold visible in V. apply andb_true_iff in V as [V _]. apply Nat.leb_le in V.
  apply negb_true_iff, Nat.eqb_neq. lia.
Qed.

Lemma go_quote_nl_free uprint s : nl_free (go_quote uprint s) = true.
Proof.
  unfold go_quote. rewrite nl_free_cat. cbn [forallb].
  rewrite (well_quoted_nl_free _ (quote_chars_well_quoted uprint s)). reflexivity.
Qed.

Lemma fmt_q_value_nl_free uprint x : nl_free (fmt_q_value uprint x) = true.
Proof. destruct x as [[s|t|[]|]|]; try reflexivity; apply go_quote_nl_free. Qed.

Lemma forallb_perm {X} (f : X -> bool) l l' : Permutation l l' -> forallb f l = forallb f l'.
Proof.
  intros P. destruct (forallb f l) eqn:E; symmetry.
  - rewrite forallb_forall in *. intros x Hx. apply E. eapply Permutation_in; [symmetry; exact P|exact Hx].
  - apply not_true_iff_false. intros H. rewrite forallb_forall in H.
    apply not_true_iff_false in E. apply E. rewrite forallb_forall.
    intros x Hx. apply H. eapply Permutation_in; [exact P|exact Hx].
Qed.

Ltac nl_cat := rewrite nl_free_cat; cbn [forallb];
  repeat match goal with H : nl_free _ = true |- _ => rewrite H end; reflexivity.

Section Lines.

Variable store : string -> vault_reply.

Lemma nl_ok_bind {A B} (m : M A) (f : A -> M B) :
  nl_ok m -> (forall a, nl_ok (f a)) -> nl_ok (bind m f).
Proof.
  unfold nl_ok. intros Hm Hf. destruct m as [es [a|msg c]]; [|exact Hm].
  rewrite bind_ok. cbn [fst] in *. rewrite forallb_app, Hm. apply Hf.
Qed.

Lemma nl_ok_println s : nl_free s = true -> nl_ok (println s).
Proof. intros H. unfold nl_ok. simpl. rewrite H. reflexivity. Qed.

Lemma nl_ok_range_vars uprint l : keys_nl_free l = true -> nl_ok (range_vars uprint l).
Proof.
  unfold nl_ok, keys_nl_free. rewrite range_vars_eq. simpl fst.
  induction l as [|[k v] t IH]; intros H; [reflexivity|].
  simpl in H. apply andb_true_iff in H as [Hk H].
  change (nl_free (var_line uprint k v) && forallb stdout_nl_free (var_events uprint t) = true).
  rewrite IH by exact H. rewrite andb_true_r. unfold var_line.
  rewrite nl_free_cat. cbn [forallb]. rewrite Hk, go_quote_nl_free. reflexivity.
Qed.

Lemma nl_ok_range_secrets uprint l : paths_nl_free l = true -> nl_ok (range_secrets uprint store l).
Proof.
  unfold paths_nl_free.
  induction l as [|[k p] t IH]; intros H; cbn [range_secrets]; [reflexivity|].
  simpl in H. apply andb_true_iff in H as [Hkp H]. apply andb_true_iff in Hkp as [Hk Hp].
  apply nl_ok_bind; [|intros _; exact (IH H)].
  unfold emit_secret, GetVaultSecret.
  destruct (store p); try reflexivity.
  unfold nl_ok. simpl fst. cbn [forallb stdout_nl_free andb].
  unfold secret_line. rewrite nl_free_cat. cbn [forallb]. rewrite Hk, Hp, fmt_q_value_nl_free.
  reflexivity.
Qed.

Lemma nl_ok_print_config uprint (order : range_order) (legacy : bool) config env dc :
  perm_order order -> nl_free env = true -> nl_free dc = true ->
  printed_nl_free config env dc = true ->
  nl_ok (print_config uprint order store legacy config env dc).
Proof.
  intros Ho He Hd Hc. unfold printed_nl_free, keys_nl_free, paths_nl_free in Hc.
  repeat (apply andb_true_iff in Hc as [Hc ?]).
  unfold print_config. destruct legacy;
  repeat first [ apply nl_ok_range_vars; unfold keys_nl_free; rewrite (forallb_perm _ _ _ (Ho _ _));
                 assumption
               | apply nl_ok_range_secrets; unfold paths_nl_free; rewrite (forallb_perm _ _ _ (Ho _ _));
                 assumption
               | apply nl_ok_bind; [|intros _]
               | unfold when; match goal with |- nl_ok (if ?b then _ else _) => destruct b end
               | apply nl_ok_println; nl_cat
               | reflexivity ].
Qed.

End Lines.

(** When the environment, the datacenter and the keys and secret paths of
    the selected buckets contain no newline, and each range visits every
    entry once, every stdout print of a run writes one line, beginning with
    [# ] or [export ] (the decoder's error before exit 5 apart). *)
Theorem action_stdout_lines (uprint : Z -> bool) (order : range_order) w a :
  perm_order order -> nl_free (a_env a) = true -> nl_free (a_dc a) = true ->
  (forall doc, files w (a_varsFile a) = Some doc ->
     printed_nl_free (fst (yaml_Unmarshal_Config doc)) (a_env a) (a_dc a) = true) ->
  forallb line_shape (fst (action uprint order w a)) = true /\
  forallb stdout_nl_free (fst (action uprint order w a)) = true.
Proof.
  intros Ho He Hd Hc. split; [apply action_print_prefixes|].
  fold (nl_ok (action uprint order w a)). unfold action.
  apply nl_ok_bind; [destruct (a_mlock a); reflexivity|intros _].
  destruct (String.eqb (a_env a) EmptyString); [reflexivity|].
  apply nl_ok_bind; [reflexivity|intros _].
  destruct (files w (a_varsFile a)) as [doc|] eqn:Hf; [|reflexivity].
  specialize (Hc doc eq_refl).
  destruct (yaml_Unmarshal_Config doc) as [config ok].
  destruct ok; [apply nl_ok_print_config; assumption|].
  destruct (yaml_Unmarshal_ConfigV1 doc) as [config1 ok1].
  destruct ok1; [apply nl_ok_print_config; assumption|reflexivity].
Qed.

Lemma action_stdout_lines_witness :
  perm_order insertion_order /\
  forallb line_shape (fst (action no_table insertion_order
                             (file_world two_secrets_doc full_store) dev_us_east)) = true /\
  forallb stdout_nl_free (fst (action no_table insertion_order
                                (file_world two_secrets_doc full_store) dev_us_east)) = true.
Proof.
  assert (Hi : perm_order insertion_order) by (intros b l; apply Permutation_refl).
  split; [exact Hi|].
  apply (action_stdout_lines no_table insertion_order (file_world two_secrets_doc full_store)
           dev_us_east Hi eq_refl eq_refl).
  intros doc Hf. injection Hf as <-. vm_compute. reflexivity.
Defined.
